(** * Mitosis-detection training script: model and properties

    A shallow embedding of [train_mitoses.py].  The pure helpers
    ([get_label], [normalize], [augment], [preprocess]) are functions on
    strings and nested lists of rationals; the resettable metrics are
    accumulator records; the Keras layer objects live in a heap that the
    two model objects alias; a TensorFlow session is a record that
    [sess_run] transforms; and [train] is the script's control flow on top
    of these, returning the Python-level state and the console/summary
    trace.

    Numeric tensors are modelled over [Q]: every arithmetic step the
    script performs is rational, and float division by zero is kept as
    an explicit special value ([fval]). *)

From Stdlib Require Import ZArith QArith Qminmax List String Ascii Bool Lia Lqa.
From stdpp Require Import base list.
Import ListNotations.

Open Scope string_scope.
Open Scope Z_scope.

(** ** Exceptions and results *)

Inductive exn : Type :=
| InvalidArgumentError (msg : string)  (* tf.errors.InvalidArgumentError *)
| OutOfRangeError                      (* tf.errors.OutOfRangeError *)
| FailedPreconditionError (msg : string)
| NotFoundError (file : string)        (* restoring from a missing checkpoint *)
| FileNotFoundError (file : string)    (* Python's, from [open] *)
| ValueError (msg : string)            (* static shape mismatch *)
| Exception (msg : string).            (* Python's plain [Exception] *)

Inductive result (A : Type) : Type :=
| Ok (a : A)
| Raise (e : exn).

Arguments Ok {A} a.
Arguments Raise {A} e.

Definition rbind {A B : Type} (r : result A) (k : A -> result B) : result B :=
  match r with
  | Ok a => k a
  | Raise e => Raise e
  end.

Notation "'do' x <- r ; k" := (rbind r (fun x => k))
  (at level 10, x name, r at level 100, k at level 200).

Definition is_ok {A : Type} (r : result A) : bool :=
  match r with Ok _ => true | Raise _ => false end.

(** ** Strings and Python indexing *)

Definition is_delim (delimiter : string) (c : ascii) : bool :=
  existsb (Ascii.eqb c) (list_ascii_of_string delimiter).

(** Splitting that keeps empty pieces: one piece more than there are
    delimiter characters. *)
Fixpoint raw_split (delimiter : string) (s : string) : list string :=
  match s with
  | EmptyString => [EmptyString]
  | String c r =>
      if is_delim delimiter c then EmptyString :: raw_split delimiter r
      else match raw_split delimiter r with
           | t :: ts => String c t :: ts
           | [] => [String c EmptyString]
           end
  end.

Definition nonempty (s : string) : bool :=
  match s with EmptyString => false | String _ _ => true end.

(** [tf.string_split([s], delimiter).values]: every character of
    [delimiter] separates, and empty tokens are skipped (the operation's
    default [skip_empty=True]). *)
Definition string_split (s : string) (delimiter : string) : list string :=
  filter (fun t => nonempty t = true) (raw_split delimiter s).

(** [l[i]] with Python's negative indices; [None] when out of range. *)
Definition py_index {A : Type} (l : list A) (i : Z) : option A :=
  let n := Z.of_nat (length l) in
  if (0 <=? i) && (i <? n) then nth_error l (Z.to_nat i)
  else if (i <? 0) && (0 <=? n + i) then nth_error l (Z.to_nat (n + i))
  else None.

(** [l[-k:]] for a positive [k]: the last [k] elements, all of [l] when
    it is shorter. *)
Definition py_last {A : Type} (k : Z) (l : list A) : list A :=
  skipn (length l - Z.to_nat k)%nat l.

(** [range(a, b)]. *)
Definition py_range (a b : Z) : list Z :=
  map (fun i => a + Z.of_nat i) (seq 0 (Z.to_nat (b - a))).

(** ** Label / sample codec *)

Definition to_float (b : bool) : Q := if b then 1%Q else 0%Q.

Definition get_label (filename : string) : result Q :=
  let splits := string_split filename "/" in
  match py_index splits (-2) with
  | None => Raise (InvalidArgumentError "slice index -2 of dimension 0 out of bounds")
  | Some label_str =>
      (* check that label string is valid *)
      let is_valid := String.eqb label_str "normal" || String.eqb label_str "mitosis" in
      if is_valid
      then Ok (to_float (String.eqb label_str "mitosis"))
      else Raise (InvalidArgumentError ("assertion failed: [" ++ label_str ++ "]"))
  end.

(** An image tensor of shape (h, w, c): rows of pixels of channels. *)
Definition Image : Type := list (list (list Q)).

Definition tmap (f : Q -> Q) (image : Image) : Image :=
  map (map (map f)) image.

(** [image[..., ::-1]]: the last axis reversed. *)
Definition reverse_channels (image : Image) : Image :=
  map (map (@rev Q)) image.

Definition imagenet_means : list Q := [103.939; 116.779; 123.68]%Q.

(** [pixel - [m0, m1, m2]] under broadcasting: three channels subtract
    pointwise, one channel is stretched to three, any other channel count
    is a shape error. *)
Definition sub_means (px : list Q) : result (list Q) :=
  match px, imagenet_means with
  | [a; b; c], [m0; m1; m2] => Ok [a - m0; b - m1; c - m2]%Q
  | [a], [m0; m1; m2] => Ok [a - m0; a - m1; a - m2]%Q
  | _, _ => Raise (ValueError "Dimensions must be equal")
  end.

Fixpoint mapM {A B : Type} (f : A -> result B) (l : list A) : result (list B) :=
  match l with
  | [] => Ok []
  | x :: xs => do y <- f x; do ys <- mapM f xs; Ok (y :: ys)
  end.

Definition in_tuple (s : string) (t : list string) : bool :=
  existsb (String.eqb s) t.

Definition normalize (image : Image) (model_name : string) : result Image :=
  if in_tuple model_name ["vgg"; "resnet"] then
    let image := tmap (fun x => x * 255.0)%Q image in   (* in [0, 255] *)
    let image := reverse_channels image in              (* rgb -> bgr *)
    mapM (mapM sub_means) image                         (* mean centering *)
  else
    let image := tmap (fun x => x - 0.5)%Q image in
    let image := tmap (fun x => x * 2)%Q image in
    Ok image.

(** The two random flips; the coin tosses are inputs. *)
Definition flip_up_down (coin : bool) (image : Image) : Image :=
  if coin then rev image else image.

Definition flip_left_right (coin : bool) (image : Image) : Image :=
  if coin then map (@rev (list Q)) image else image.

Definition augment (coins : bool * bool) (image : Image) : Image :=
  let image := flip_up_down (fst coins) image in
  let image := flip_left_right (snd coins) image in
  image.

(** [tf.clip_by_value(t, lo, hi)]. *)
Definition clip_by_value (image : Image) (lo hi : Q) : Image :=
  tmap (fun x => Qmax (Qmin x hi) lo) image.

Section Codec.
(** Reading, decoding and resizing a file is the runtime's business:
    [read_decode_resize f n] is the [n] by [n] by 3 float image in [0, 1) that
    the file yields, or the decode error. *)
Variable read_decode_resize : string -> Z -> result Image.

Definition get_image (filename : string) (patch_size : Z) : result Image :=
  read_decode_resize filename patch_size.

Definition preprocess (coins : bool * bool) (filename : string) (patch_size : Z)
    (augmentation : bool) (model_name : string) : result (Image * Q * string) :=
  do label <- get_label filename;
  do image <- get_image filename patch_size;
  let image := if augmentation
               then clip_by_value (augment coins image) 0 1
               else image in
  do image <- normalize image model_name;
  Ok (image, label, filename).
End Codec.

(** ** Resettable metrics *)

(** Float division as the graph computes it: a zero divisor gives the
    special values instead of an error. *)
Inductive fval : Type :=
| Fin (q : Q)
| PInf
| NInf
| NaN.

Definition fdiv (a b : Q) : fval :=
  if Qeq_bool b 0 then
    (if Qeq_bool a 0 then NaN else if Qle_bool 0 a then PInf else NInf)
  else Fin (a / b)%Q.

(** [_safe_div] of [tf.metrics]: 0 unless the denominator is positive. *)
Definition safe_div (num den : Q) : Q :=
  if Qle_bool den 0 then 0%Q else (num / den)%Q.

Definition Qsum (l : list Q) : Q := fold_right Qplus 0%Q l.

Definition count_true (l : list bool) : Q :=
  inject_Z (Z.of_nat (length (filter (fun b => b = true) l))).

(** A [tf.metrics] function: the local variables it creates (with their
    initial values), the value tensor and the effect of the update op. *)
Record tf_metric (V In : Type) : Type := {
  init_vars : V;
  value_of : V -> Q;
  accumulate : In -> V -> V
}.

Arguments init_vars {V In} _.
Arguments value_of {V In} _ _.
Arguments accumulate {V In} _ _ _.

(** The (total, count) pair of [tf.metrics.mean]. *)
Record mean_vars : Type := { total : Q; count : Q }.

Definition tf_metrics_mean : tf_metric mean_vars (list Q) := {|
  init_vars := {| total := 0; count := 0 |};
  value_of := fun v => safe_div (total v) (count v);
  accumulate := fun values v =>
    {| total := total v + Qsum values;
       count := count v + inject_Z (Z.of_nat (length values)) |}
|}.

(** [tf.metrics.accuracy]: the mean of the per-sample agreement. *)
Definition is_correct (lp : list (bool * bool)) : list Q :=
  map (fun '(l, p) => to_float (Bool.eqb l p)) lp.

Definition tf_metrics_accuracy : tf_metric mean_vars (list (bool * bool)) := {|
  init_vars := init_vars tf_metrics_mean;
  value_of := value_of tf_metrics_mean;
  accumulate := fun lp v => accumulate tf_metrics_mean (is_correct lp) v
|}.

(** [tf.metrics.precision]: true and false positives. *)
Record ppv_vars : Type := { ppv_tp : Q; ppv_fp : Q }.

Definition tf_metrics_precision : tf_metric ppv_vars (list (bool * bool)) := {|
  init_vars := {| ppv_tp := 0; ppv_fp := 0 |};
  value_of := fun v => safe_div (ppv_tp v) (ppv_tp v + ppv_fp v);
  accumulate := fun lp v =>
    {| ppv_tp := ppv_tp v + count_true (map (fun '(l, p) => l && p) lp);
       ppv_fp := ppv_fp v + count_true (map (fun '(l, p) => negb l && p) lp) |}
|}.

(** [tf.metrics.recall]: true positives and false negatives. *)
Record sens_vars : Type := { sens_tp : Q; sens_fn : Q }.

Definition tf_metrics_recall : tf_metric sens_vars (list (bool * bool)) := {|
  init_vars := {| sens_tp := 0; sens_fn := 0 |};
  value_of := fun v => safe_div (sens_tp v) (sens_tp v + sens_fn v);
  accumulate := fun lp v =>
    {| sens_tp := sens_tp v + count_true (map (fun '(l, p) => l && p) lp);
       sens_fn := sens_fn v + count_true (map (fun '(l, p) => l && negb p) lp) |}
|}.

(** What [create_reset_metric] hands back: the metric op (a read), the
    update op (fold the batch in, return the new aggregate) and the reset
    op (re-run the initializer of the metric's local variables). *)
Record reset_metric (V In : Type) : Type := {
  metric_op : V -> Q;
  update_op : In -> V -> V * Q;
  reset_op : V -> V
}.

Arguments metric_op {V In} _ _.
Arguments update_op {V In} _ _ _.
Arguments reset_op {V In} _ _.

Definition create_reset_metric {V In : Type} (metric : tf_metric V In)
  : reset_metric V In := {|
  metric_op := value_of metric;
  update_op := fun x v => let v' := accumulate metric x v in (v', value_of metric v');
  reset_op := fun _ => init_vars metric
|}.

(** [sess.run([metric_op, update_op], feed)] repeated over a list of
    batches: the local variables at the end and the values each update
    returned. *)
Fixpoint run_updates {V In : Type} (m : reset_metric V In) (batches : list In) (v : V)
  : V * list Q :=
  match batches with
  | [] => (v, [])
  | x :: xs =>
      let '(v1, out) := update_op m x v in
      let '(v2, outs) := run_updates m xs v1 in
      (v2, out :: outs)
  end.

(** ** Keras layers and models *)

(** Graph variables: those of the pretrained application, numbered, and
    the two of the new dense classifier. *)
Inductive var : Type :=
| base_var (i : nat)
| dense_kernel
| dense_bias.

Definition var_eqb (u v : var) : bool :=
  match u, v with
  | base_var i, base_var j => Nat.eqb i j
  | dense_kernel, dense_kernel => true
  | dense_bias, dense_bias => true
  | _, _ => false
  end.

(** A layer object.  [trainable] is the mutable attribute; the three
    lists are what the layer created when it was built: its trainable
    weights (kernel, bias, scale, offset), its non-trainable weights
    (moving statistics) and the variables its update ops assign. *)
Record Layer : Type := {
  layer_name : string;
  trainable : bool;
  own_trainable : list var;
  own_non_trainable : list var;
  own_updates : list var
}.

Definition set_trainable (b : bool) (l : Layer) : Layer :=
  {| layer_name := layer_name l;
     trainable := b;
     own_trainable := own_trainable l;
     own_non_trainable := own_non_trainable l;
     own_updates := own_updates l |}.

(** [layer.trainable_weights], [layer.non_trainable_weights],
    [layer.weights]. *)
Definition layer_trainable_weights (l : Layer) : list var :=
  if trainable l then own_trainable l else [].

Definition layer_non_trainable_weights (l : Layer) : list var :=
  if trainable l then own_non_trainable l
  else (own_trainable l ++ own_non_trainable l)%list.

Definition layer_weights (l : Layer) : list var :=
  (layer_trainable_weights l ++ layer_non_trainable_weights l)%list.

(** Layer objects are shared between [model_base] and [model]: both hold
    references (indices) into one heap of layers. *)
Definition Heap : Type := list Layer.
Definition Model : Type := list nat.

Definition deref (h : Heap) (m : Model) : list Layer :=
  omap (fun id => (h : list Layer) !! id) m.

(** [model.trainable_weights] and [model.updates]: the layers' own, in
    layer order.  A layer's update ops are created when the layer is
    called (batch normalization adds the assignments of its moving mean
    and variance then); in the Keras 2.0 line this script is written
    against, [updates] returns them whether or not the layer is
    trainable. *)
Definition trainable_weights (h : Heap) (m : Model) : list var :=
  concat (map layer_trainable_weights (deref h m)).

Definition updates (h : Heap) (m : Model) : list var :=
  concat (map own_updates (deref h m)).

(** [for layer in layers: layer.trainable = b]. *)
Definition set_all_trainable (b : bool) (layers : Model) (h : Heap) : Heap :=
  fold_left (fun (h : list Layer) id => alter (set_trainable b) id h) layers h.

(** A layer of a pretrained application as the library delivers it. *)
Record BaseLayer : Type := {
  bl_name : string;
  bl_trainable : list nat;
  bl_non_trainable : list nat;
  bl_updates : list nat
}.

Definition keras_layer (b : BaseLayer) : Layer :=
  {| layer_name := bl_name b;
     trainable := true;
     own_trainable := map base_var (bl_trainable b);
     own_non_trainable := map base_var (bl_non_trainable b);
     own_updates := map base_var (bl_updates b) |}.

Definition InputLayer : Layer :=
  {| layer_name := "input_1"; trainable := true;
     own_trainable := []; own_non_trainable := []; own_updates := [] |}.

Definition Flatten : Layer :=
  {| layer_name := "flatten_1"; trainable := true;
     own_trainable := []; own_non_trainable := []; own_updates := [] |}.

Definition Dense : Layer :=
  {| layer_name := "dense_1"; trainable := true;
     own_trainable := [dense_kernel; dense_bias];
     own_non_trainable := []; own_updates := [] |}.

(** The pretrained applications ([VGG16], [ResNet50] with
    [include_top=False]) are the library's: their layer lists are inputs
    of the model. *)
Record Applications : Type := {
  VGG16 : list BaseLayer;
  ResNet50 : list BaseLayer
}.

(** ** Configuration and graph construction *)

Record Config : Type := {
  train_path : string;
  val_path : string;
  exp_path : string;
  model_name : string;
  patch_size : Z;
  batch_size : Z;
  clf_epochs : Z;
  finetune_epochs : Z;
  clf_lr : Q;
  finetune_lr : Q;
  finetune_momentum : Q;
  finetune_layers : Z;
  l2 : Q;
  augmentation : bool;
  log_interval : Z;
  threads : Z;
  checkpoint : bool;
  resume : bool
}.

(** A [tf.contrib.data] pipeline: list the files, optionally shuffle,
    map [preprocess] with the given flags, batch. *)
Record Dataset : Type := {
  ds_files : string;
  ds_shuffle : option Z;
  ds_patch_size : Z;
  ds_augmentation : bool;
  ds_model_name : string;
  ds_num_threads : Z;
  ds_output_buffer_size : Z;
  ds_batch_size : Z
}.

Definition train_dataset (cfg : Config) : Dataset :=
  {| ds_files := train_path cfg ++ "/*/*.jpg";
     ds_shuffle := Some 500000;
     ds_patch_size := patch_size cfg;
     ds_augmentation := augmentation cfg;
     ds_model_name := model_name cfg;
     ds_num_threads := threads cfg;
     ds_output_buffer_size := 100 * batch_size cfg;
     ds_batch_size := batch_size cfg |}.

Definition val_dataset (cfg : Config) : Dataset :=
  {| ds_files := val_path cfg ++ "/*/*.jpg";
     ds_shuffle := None;
     ds_patch_size := patch_size cfg;
     ds_augmentation := false;
     ds_model_name := model_name cfg;
     ds_num_threads := threads cfg;
     ds_output_buffer_size := 100 * batch_size cfg;
     ds_batch_size := batch_size cfg |}.

(** What building the graph allocates, in program order. *)
Inductive construct : Type :=
| NewDataset (d : Dataset)
| NewIterator
| NewTensor (name : string)
| NewLayers (ls : list Layer)
| NewOptimizer (name : string)
| NewMetric (scope : string)
| NewSummary (name : string)
| NewFileWriter (path : string)
| NewSaver
| NewSession.

Definition is_data_construct (c : construct) : bool :=
  match c with
  | NewDataset _ | NewIterator | NewTensor _ => true
  | _ => false
  end.

(** The [with tf.name_scope("data")] block. *)
Definition data_block (cfg : Config) : list construct :=
  [ NewDataset (train_dataset cfg);
    NewDataset (val_dataset cfg);
    NewIterator;
    NewTensor "images"; NewTensor "labels"; NewTensor "filenames";
    NewTensor "actual_batch_size";
    NewTensor "percent_pos";
    NewTensor "pos_mask"; NewTensor "neg_mask";
    NewTensor "mitosis_images"; NewTensor "normal_images";
    NewTensor "mitosis_filenames"; NewTensor "normal_filenames";
    NewTensor "train_init_op"; NewTensor "val_init_op" ].

(** The [with tf.name_scope("model")] block: the heap of layer objects,
    [model_base.layers] and [model.layers]. *)
Definition model_block (apps : Applications) (cfg : Config)
  : result (Heap * Model * Model) :=
  if String.eqb (model_name cfg) "logreg" then
    (* model_base is an empty Sequential *)
    let heap := [InputLayer; Flatten; Dense] in
    Ok (heap, [], seq 0 (length heap))
  else if String.eqb (model_name cfg) "vgg" then
    let base := map keras_layer (VGG16 apps) in
    let heap := (base ++ [Flatten; Dense])%list in
    Ok (heap, seq 0 (length base), seq 0 (length heap))
  else if String.eqb (model_name cfg) "resnet" then
    let base := map keras_layer (ResNet50 apps) in
    let heap := (base ++ [Flatten; Dense])%list in
    Ok (heap, seq 0 (length base), seq 0 (length heap))
  else Raise (Exception ("model name unknown: " ++ model_name cfg)).

(** The graph [train] builds before it opens the session. *)
Record Graph : Type := {
  layers : Heap;                         (* after both mutations *)
  model_base : Model;
  model : Model;
  clf_var_list : list var;               (* clf_grads_and_vars *)
  clf_model_update_ops : list var;
  finetune_var_list : list var;          (* finetune_grads_and_vars *)
  finetune_model_update_ops : list var
}.

(** The [with tf.name_scope("optim")] block. *)
Definition optim_block (cfg : Config) (hbm : Heap * Model * Model) : Graph :=
  let '(heap, base, mdl) := hbm in
  (* classifier: freeze all pre-trained model layers *)
  let heap := set_all_trainable false base heap in
  let clf_vars := trainable_weights heap mdl in
  let clf_upd := updates heap mdl in
  (* finetuning: unfreeze a portion of the pre-trained model layers *)
  let heap := if 0 <? finetune_layers cfg
              then set_all_trainable true (py_last (finetune_layers cfg) base) heap
              else heap in
  let ft_vars := trainable_weights heap mdl in
  let ft_upd := updates heap mdl in
  {| layers := heap; model_base := base; model := mdl;
     clf_var_list := clf_vars; clf_model_update_ops := clf_upd;
     finetune_var_list := ft_vars; finetune_model_update_ops := ft_upd |}.

Definition rest_of_graph (cfg : Config) (heap : Heap) : list construct :=
  [ NewLayers heap;
    NewTensor "probs"; NewTensor "preds"; NewTensor "loss";
    NewOptimizer "Adam"; NewTensor "clf_train_op";
    NewOptimizer "Momentum"; NewTensor "finetune_train_op";
    NewMetric "mean_loss"; NewMetric "acc"; NewMetric "ppv"; NewMetric "sens";
    NewTensor "f1"; NewTensor "metric_update_ops"; NewTensor "metric_reset_ops";
    NewSummary "minibatch"; NewSummary "epoch";
    NewFileWriter (exp_path cfg);
    NewFileWriter (exp_path cfg ++ "/train");
    NewFileWriter (exp_path cfg ++ "/val");
    NewSaver; NewSession ].

(** Everything [train] does up to and including [K.get_session()]: the
    allocations made, and the graph or the exception that ended it. *)
Definition build_graph (apps : Applications) (cfg : Config)
  : list construct * result Graph :=
  let data := data_block cfg in
  match model_block apps cfg with
  | Raise e => (data, Raise e)
  | Ok hbm =>
      let g := optim_block cfg hbm in
      ((data ++ rest_of_graph cfg (layers g))%list, Ok g)
  end.

(** ** The TensorFlow runtime *)

(** The numeric side of the graph is the runtime's: what a batch is,
    what the forward pass and the gradients evaluate to, how each
    optimizer turns a gradient into a new value.  The script only
    decides which variables are handed to which optimizer and which ops
    are run when; the model is parametric in the rest. *)
Record Backend : Type := {
  Tensor : Type;
  Batch : Type;
  Slots : Type;                         (* an optimizer's own variables *)
  initial_value : var -> Tensor;        (* pretrained or freshly initialized *)
  (* the forward pass, given the variables, the learning phase and a batch *)
  labels_and_preds : (var -> Tensor) -> Z -> Batch -> list (bool * bool);
  loss_of : (var -> Tensor) -> Z -> Batch -> Q;
  (* the gradient of the loss with respect to a variable *)
  gradient : (var -> Tensor) -> Z -> Batch -> var -> Tensor;
  (* the value an update op of the model assigns to its variable *)
  update_value : (var -> Tensor) -> Z -> Batch -> var -> Tensor;
  (* per optimizer: initial slots, new value of a variable, new slots *)
  adam_slots : Slots;
  adam_rule : Q -> Slots -> var -> Tensor -> Tensor -> Tensor;
  adam_advance : Q -> Slots -> list (var * Tensor) -> Slots;
  momentum_slots : Slots;
  momentum_rule : Q -> Q -> Slots -> var -> Tensor -> Tensor -> Tensor;
  momentum_advance : Q -> Q -> Slots -> list (var * Tensor) -> Slots
}.

(** The local variables of the four metrics. *)
Record Metrics : Type := {
  mean_loss_vars : mean_vars;
  acc_vars : mean_vars;
  ppv_local : ppv_vars;
  sens_local : sens_vars
}.

Definition mean_loss_metric := create_reset_metric tf_metrics_mean.
Definition acc_metric := create_reset_metric tf_metrics_accuracy.
Definition ppv_metric := create_reset_metric tf_metrics_precision.
Definition sens_metric := create_reset_metric tf_metrics_recall.

Definition mean_loss_of (m : Metrics) : Q := metric_op mean_loss_metric (mean_loss_vars m).
Definition acc_of (m : Metrics) : Q := metric_op acc_metric (acc_vars m).
Definition ppv (m : Metrics) : Q := metric_op ppv_metric (ppv_local m).
Definition sens (m : Metrics) : Q := metric_op sens_metric (sens_local m).

(** [f1 = 2 * (ppv * sens) / (ppv + sens)], a tensor over the two metric
    value tensors. *)
Definition f1 (m : Metrics) : fval :=
  fdiv (2 * (ppv m * sens m)) (ppv m + sens m).

Definition initial_metrics : Metrics :=
  {| mean_loss_vars := init_vars tf_metrics_mean;
     acc_vars := init_vars tf_metrics_accuracy;
     ppv_local := init_vars tf_metrics_precision;
     sens_local := init_vars tf_metrics_recall |}.

(** [metric_update_ops]: the group of the four update ops. *)
Definition metric_update (loss_value : Q) (lp : list (bool * bool)) (m : Metrics) : Metrics :=
  {| mean_loss_vars := fst (update_op mean_loss_metric [loss_value] (mean_loss_vars m));
     acc_vars := fst (update_op acc_metric lp (acc_vars m));
     ppv_local := fst (update_op ppv_metric lp (ppv_local m));
     sens_local := fst (update_op sens_metric lp (sens_local m)) |}.

(** [metric_reset_ops]: the group of the four reset ops. *)
Definition metric_reset (m : Metrics) : Metrics :=
  {| mean_loss_vars := reset_op mean_loss_metric (mean_loss_vars m);
     acc_vars := reset_op acc_metric (acc_vars m);
     ppv_local := reset_op ppv_metric (ppv_local m);
     sens_local := reset_op sens_metric (sens_local m) |}.

(** What [sess.run] can be asked for. *)
Inductive fetch : Type :=
| clf_train_op
| finetune_train_op
| metric_update_ops
| metric_reset_ops
| loss
| mean_loss
| acc
| minibatch_summaries
| epoch_summaries
| train_init_op
| val_init_op.

Definition fetch_eqb (a b : fetch) : bool :=
  match a, b with
  | clf_train_op, clf_train_op | finetune_train_op, finetune_train_op
  | metric_update_ops, metric_update_ops | metric_reset_ops, metric_reset_ops
  | loss, loss | mean_loss, mean_loss | acc, acc
  | minibatch_summaries, minibatch_summaries | epoch_summaries, epoch_summaries
  | train_init_op, train_init_op | val_init_op, val_init_op => true
  | _, _ => false
  end.

Definition fetched (f : fetch) (fetches : list fetch) : bool :=
  existsb (fetch_eqb f) fetches.

(** Fetches that depend on [iterator.get_next()]. *)
Definition needs_batch (f : fetch) : bool :=
  match f with
  | clf_train_op | finetune_train_op | metric_update_ops | loss | minibatch_summaries => true
  | _ => false
  end.

Inductive value : Type :=
| NoValue
| Scalar (q : Q)
| MinibatchSummary (loss_value : Q) (percent_pos : Q)
| EpochSummary (loss_value acc_value ppv_value sens_value : Q) (f1_value : fval).

Definition as_scalar (v : value) : Q :=
  match v with Scalar q => q | _ => 0%Q end.

Section Runtime.
Variable B : Backend.

Definition Store : Type := var -> Tensor B.

Definition assign (w : Store) (v : var) (x : Tensor B) : Store :=
  fun u => if var_eqb u v then x else w u.

(** The files the training data and validation data resolve to, as the
    batches the iterator yields: the training order is drawn anew at
    every initialization, the validation order is fixed. *)
Record Data : Type := {
  train_batches : nat -> list (Batch B);
  val_batches : list (Batch B)
}.

Record Session : Type := {
  weights : Store;                       (* the model's variables *)
  clf_slots : Slots B;                   (* Adam's variables *)
  finetune_slots : Slots B;              (* Momentum's variables *)
  metrics : Metrics;                     (* local variables *)
  iterator : option (list (Batch B));    (* None: not initialized *)
  train_inits : nat                      (* shuffles drawn so far *)
}.

Definition with_weights (s : Session) (w : Store) (cs fs : Slots B) : Session :=
  {| weights := w; clf_slots := cs; finetune_slots := fs;
     metrics := metrics s; iterator := iterator s; train_inits := train_inits s |}.

Definition with_metrics (s : Session) (m : Metrics) : Session :=
  {| weights := weights s; clf_slots := clf_slots s; finetune_slots := finetune_slots s;
     metrics := m; iterator := iterator s; train_inits := train_inits s |}.

Definition with_iterator (s : Session) (it : option (list (Batch B))) (n : nat) : Session :=
  {| weights := weights s; clf_slots := clf_slots s; finetune_slots := finetune_slots s;
     metrics := metrics s; iterator := it; train_inits := n |}.

(** [opt.compute_gradients(loss, var_list=...)]. *)
Definition compute_gradients (w : Store) (phase : Z) (b : Batch B) (var_list : list var)
  : list (var * Tensor B) :=
  map (fun v => (v, gradient B w phase b v)) var_list.

(** [opt.apply_gradients(grads_and_vars)]: one assignment per listed
    variable. *)
Definition apply_gradients (rule : var -> Tensor B -> Tensor B -> Tensor B)
    (grads_and_vars : list (var * Tensor B)) (w : Store) : Store :=
  fold_left (fun w '(v, g) => assign w v (rule v (w v) g)) grads_and_vars w.

(** The update ops of [model.updates]: each assigns its variable a
    value computed from the batch. *)
Definition run_update_ops (w0 : Store) (phase : Z) (b : Batch B) (ops : list var)
    (w : Store) : Store :=
  fold_left (fun w v => assign w v (update_value B w0 phase b v)) ops w.

Variable cfg : Config.
Variable g : Graph.
Variable data : Data.

(** [tf.group(apply_grads_op, *model_update_ops)] for either phase.
    Gradients and update values are those of the variables as they
    were when the step began. *)
Definition run_train_op (op : fetch) (phase : Z) (b : Batch B) (s : Session) : Session :=
  let w := weights s in
  match op with
  | clf_train_op =>
      let gv := compute_gradients w phase b (clf_var_list g) in
      let w1 := apply_gradients (adam_rule B (clf_lr cfg) (clf_slots s)) gv w in
      let w2 := run_update_ops w phase b (clf_model_update_ops g) w1 in
      with_weights s w2 (adam_advance B (clf_lr cfg) (clf_slots s) gv) (finetune_slots s)
  | finetune_train_op =>
      let gv := compute_gradients w phase b (finetune_var_list g) in
      let w1 := apply_gradients
                  (momentum_rule B (finetune_lr cfg) (finetune_momentum cfg) (finetune_slots s))
                  gv w in
      let w2 := run_update_ops w phase b (finetune_model_update_ops g) w1 in
      with_weights s w2 (clf_slots s)
        (momentum_advance B (finetune_lr cfg) (finetune_momentum cfg) (finetune_slots s) gv)
  | _ => s
  end.

Definition when (c : bool) (f : Session -> Session) (s : Session) : Session :=
  if c then f s else s.

(** The value a fetched tensor has once the run's ops have executed. *)
Definition fetch_value (w : Store) (phase : Z) (batch : option (Batch B)) (s : Session)
    (f : fetch) : value :=
  match f, batch with
  | loss, Some b => Scalar (loss_of B w phase b)
  | minibatch_summaries, Some b =>
      let lp := labels_and_preds B w phase b in
      MinibatchSummary (loss_of B w phase b)
        (safe_div (count_true (map fst lp)) (inject_Z (Z.of_nat (length lp))))
  | mean_loss, _ => Scalar (mean_loss_of (metrics s))
  | acc, _ => Scalar (acc_of (metrics s))
  | epoch_summaries, _ =>
      EpochSummary (mean_loss_of (metrics s)) (acc_of (metrics s))
        (ppv (metrics s)) (sens (metrics s)) (f1 (metrics s))
  | _, _ => NoValue
  end.

(** [sess.run(fetches, feed_dict={K.learning_phase(): phase})].  A run
    with a fetch that depends on the iterator draws one batch, or
    raises [OutOfRangeError] (leaving the session as it was) when the
    iterator is exhausted.  The loss, the predictions and the gradients of
    a run are those of the variables as the run found them; the metric
    values it returns are read after its updates. *)
Definition sess_run (fetches : list fetch) (feed_dict : option Z) (s : Session)
  : result (Session * list value) :=
  let phase := match feed_dict with Some p => p | None => 0 end in
  do drawn <-
    (if existsb needs_batch fetches then
       match iterator s with
       | None => Raise (FailedPreconditionError "GetNext() failed because the iterator has not been initialized")
       | Some [] => Raise OutOfRangeError
       | Some (b :: rest) => Ok (Some b, with_iterator s (Some rest) (train_inits s))
       end
     else Ok (None, s));
  let '(batch, s) := drawn in
  let w := weights s in
  let s :=
    match batch with
    | Some b =>
        let s := when (fetched clf_train_op fetches) (run_train_op clf_train_op phase b) s in
        let s := when (fetched finetune_train_op fetches)
                   (run_train_op finetune_train_op phase b) s in
        when (fetched metric_update_ops fetches)
          (fun s => with_metrics s
             (metric_update (loss_of B w phase b) (labels_and_preds B w phase b) (metrics s))) s
    | None => s
    end in
  let s := when (fetched metric_reset_ops fetches)
             (fun s => with_metrics s (metric_reset (metrics s))) s in
  let s := when (fetched train_init_op fetches)
             (fun s => with_iterator s (Some (train_batches data (train_inits s)))
                         (S (train_inits s))) s in
  let s := when (fetched val_init_op fetches)
             (fun s => with_iterator s (Some (val_batches data)) (train_inits s)) s in
  Ok (s, map (fetch_value w phase batch s) fetches).
End Runtime.

Arguments train_batches {B} _ _.
Arguments val_batches {B} _.
Arguments weights {B} _ _.
Arguments clf_slots {B} _.
Arguments finetune_slots {B} _.
Arguments metrics {B} _.
Arguments iterator {B} _.
Arguments train_inits {B} _.
Arguments with_weights {B} _ _ _ _.
Arguments with_metrics {B} _ _.
Arguments with_iterator {B} _ _ _.
Arguments assign {B} _ _ _ _.

(** ** The training script *)

Inductive writer : Type := train_writer | val_writer.

(** What the script prints and writes, in order.  [EpochBegin] and
    [SessRun] are markers, not outputs: the first records which train op
    the iteration of the epoch loop that starts here is bound to, the
    second every call of [sess.run] with its fetches and feed. *)
Inductive event : Type :=
| EpochBegin (train_op : fetch) (epoch : Z)
| SessRun (fetches : list fetch) (feed_dict : option Z)
| PrintTrain (epoch step : Z) (loss_val mean_loss_val acc_val : Q)
| PrintTrainEpoch (epoch : Z) (mean_loss_val acc_val : Q)
| PrintVal (epoch vi : Z) (loss_val mean_loss_val acc_val : Q)
| PrintValEpoch (epoch : Z) (mean_loss_val acc_val : Q)
| AddSummary (w : writer) (summary_str : value) (step : Z)
| Flush (w : writer)
| PrintSaved (acc_val mean_loss_val : Q) (epoch : Z).

Section Train.
Variable apps : Applications.
Variable B : Backend.
Variable data : Data B.
Variable cfg : Config.

(** The files of the experiment directory that the script reads back:
    the graph checkpoint ([model.ckpt], every global variable), the
    pickled counters, and the Keras model files it leaves behind. *)
Record Checkpoint : Type := {
  ck_weights : Store B;
  ck_clf_slots : Slots B;
  ck_finetune_slots : Slots B
}.

Record Files : Type := {
  model_ckpt : option Checkpoint;
  global_step_epoch_pickle : option (Z * Z);
  keras_models : list (Q * Q * Z)
}.

(** The Python-level state of [train] once the graph is built. *)
Record State : Type := {
  global_step : Z;
  global_epoch : Z;
  sess : Session B;
  files : Files;
  out : list event
}.

Definition with_sess (st : State) (s : Session B) : State :=
  {| global_step := global_step st; global_epoch := global_epoch st;
     sess := s; files := files st; out := out st |}.

Definition emit (st : State) (es : list event) : State :=
  {| global_step := global_step st; global_epoch := global_epoch st;
     sess := sess st; files := files st; out := (out st ++ es)%list |}.

Definition with_counters (st : State) (step epoch : Z) : State :=
  {| global_step := step; global_epoch := epoch;
     sess := sess st; files := files st; out := out st |}.

Definition with_files (st : State) (f : Files) : State :=
  {| global_step := global_step st; global_epoch := global_epoch st;
     sess := sess st; files := f; out := out st |}.

(** [initialize_variables(sess)]: every variable not yet initialized
    gets its initial value, the local variables are initialized, and
    the counters start at 0. *)
Definition initialize_variables : Session B * (Z * Z) :=
  ({| weights := initial_value B;
      clf_slots := adam_slots B;
      finetune_slots := momentum_slots B;
      metrics := initial_metrics;
      iterator := None;
      train_inits := O |}, (0, 0)).

(** [saver.restore(sess, checkpoint_filename)]. *)
Definition saver_restore (fs : Files) (s : Session B) : result (Session B) :=
  match model_ckpt fs with
  | None => Raise (NotFoundError (exp_path cfg ++ "/model.ckpt"))
  | Some ck => Ok (with_weights s (ck_weights ck) (ck_clf_slots ck) (ck_finetune_slots ck))
  end.

(** [saver.save(sess, checkpoint_filename)]. *)
Definition saver_save (s : Session B) : Checkpoint :=
  {| ck_weights := weights s;
     ck_clf_slots := clf_slots s;
     ck_finetune_slots := finetune_slots s |}.

(** [pickle.load(open(global_step_epoch_filename, "rb"))]. *)
Definition pickle_load (fs : Files) : result (Z * Z) :=
  match global_step_epoch_pickle fs with
  | None => Raise (FileNotFoundError (exp_path cfg ++ "/global_step_epoch.pickle"))
  | Some p => Ok p
  end.

Variable g : Graph.

(** A call of [sess.run]: the state afterwards (the session is as it
    was when the call raised) and the fetched values or the exception. *)
Definition run (fetches : list fetch) (feed_dict : option Z) (st : State)
  : State * result (list value) :=
  let st := emit st [SessRun fetches feed_dict] in
  match sess_run B cfg g data fetches feed_dict (sess st) with
  | Ok (s, vs) => (with_sess st s, Ok vs)
  | Raise e => (st, Raise e)
  end.

(** A call outside any [try]: an exception ends the run. *)
Definition run_or_raise (fetches : list fetch) (feed_dict : option Z) (st : State)
  : result (State * list value) :=
  let '(st, r) := run fetches feed_dict st in
  do vs <- r; Ok (st, vs).

Definition nth_value (vs : list value) (i : nat) : value := nth i vs NoValue.

(** The training [while True] loop.  Every iteration that does not
    leave through [break] draws a batch, so [fuel] bounds the
    iterations from above when it exceeds the batches left. *)
Fixpoint train_while (fuel : nat) (train_op : fetch) (st : State) : result State :=
  match fuel with
  | O => Ok st
  | S fuel =>
      if (0 <? log_interval cfg) && (global_step st mod log_interval cfg =? 0) then
        (* train, update metrics, & log stuff *)
        match run [train_op; metric_update_ops; loss; mean_loss; acc; minibatch_summaries]
                  (Some 1) st with
        | (st1, Ok vs) =>
            let loss_val := as_scalar (nth_value vs 2) in
            let mean_loss_val := as_scalar (nth_value vs 3) in
            let acc_val := as_scalar (nth_value vs 4) in
            let summary_str := nth_value vs 5 in
            let st2 := emit st1
              [AddSummary train_writer summary_str (global_step st1);
               PrintTrain (global_epoch st1) (global_step st1) loss_val mean_loss_val acc_val] in
            train_while fuel train_op
              (with_counters st2 (global_step st2 + 1) (global_epoch st2))
        | (st1, Raise OutOfRangeError) => Ok st1        (* break *)
        | (_, Raise e) => Raise e
        end
      else
        (* train & update metrics *)
        match run [train_op; metric_update_ops] (Some 1) st with
        | (st1, Ok _) =>
            train_while fuel train_op
              (with_counters st1 (global_step st1 + 1) (global_epoch st1))
        | (st1, Raise OutOfRangeError) => Ok st1        (* break *)
        | (_, Raise e) => Raise e
        end
  end.

(** The validation [while True] loop, with its own step counter. *)
Fixpoint val_while (fuel : nat) (vi : Z) (st : State) : result State :=
  match fuel with
  | O => Ok st
  | S fuel =>
      (* evaluate & update metrics *)
      if (0 <? log_interval cfg) && (vi mod log_interval cfg =? 0) then
        match run [metric_update_ops; loss; mean_loss; acc] (Some 0) st with
        | (st1, Ok vs) =>
            let loss_val := as_scalar (nth_value vs 1) in
            let mean_loss_val := as_scalar (nth_value vs 2) in
            let acc_val := as_scalar (nth_value vs 3) in
            let st2 := emit st1
              [PrintVal (global_epoch st1) vi loss_val mean_loss_val acc_val] in
            val_while fuel (vi + 1) st2
        | (st1, Raise OutOfRangeError) => Ok st1        (* break *)
        | (_, Raise e) => Raise e
        end
      else
        match run [metric_update_ops] (Some 0) st with
        | (st1, Ok _) => val_while fuel (vi + 1) st1
        | (st1, Raise OutOfRangeError) => Ok st1        (* break *)
        | (_, Raise e) => Raise e
        end
  end.

Definition batches_left (st : State) : nat :=
  match iterator (sess st) with
  | Some l => length l
  | None => O
  end.

(** The training half of the epoch body. *)
Definition train_pass (train_op : fetch) (st : State) : result State :=
  do r <- run_or_raise [train_init_op] None st;
  let st := fst r in
  do st <- train_while (S (batches_left st)) train_op st;
  (* log average training metrics for epoch & reset *)
  do r <- run_or_raise [mean_loss; acc; epoch_summaries] None st;
  let '(st, vs) := r in
  let mean_loss_val := as_scalar (nth_value vs 0) in
  let acc_val := as_scalar (nth_value vs 1) in
  let summary_str := nth_value vs 2 in
  let st := emit st [PrintTrainEpoch (global_epoch st) mean_loss_val acc_val;
                     AddSummary train_writer summary_str (global_epoch st)] in
  do r <- run_or_raise [metric_reset_ops] None st;
  Ok (fst r).

(** The validation half; it hands back the epoch's validation loss and
    accuracy, which name the saved model file. *)
Definition val_pass (st : State) : result (State * (Q * Q)) :=
  do r <- run_or_raise [val_init_op] None st;
  let st := fst r in
  do st <- val_while (S (batches_left st)) 0 st;
  (* log average validation metrics for epoch & reset *)
  do r <- run_or_raise [mean_loss; acc; epoch_summaries] None st;
  let '(st, vs) := r in
  let mean_loss_val := as_scalar (nth_value vs 0) in
  let acc_val := as_scalar (nth_value vs 1) in
  let summary_str := nth_value vs 2 in
  let st := emit st [PrintValEpoch (global_epoch st) mean_loss_val acc_val;
                     AddSummary val_writer summary_str (global_epoch st)] in
  do r <- run_or_raise [metric_reset_ops] None st;
  Ok (emit (fst r) [Flush val_writer], (mean_loss_val, acc_val)).

(** The [if checkpoint:] block. *)
Definition save_model (mean_loss_val acc_val : Q) (st : State) : State :=
  let fs :=
    {| model_ckpt := Some (saver_save (sess st));
       global_step_epoch_pickle := Some (global_step st, global_epoch st);
       keras_models := (keras_models (files st)
                          ++ [(acc_val, mean_loss_val, global_epoch st)])%list |} in
  emit (with_files st fs) [PrintSaved acc_val mean_loss_val (global_epoch st)].

(** One iteration of the epoch loop. *)
Definition run_epoch (train_op : fetch) (st : State) : result State :=
  let st := emit st [EpochBegin train_op (global_epoch st)] in
  do st <- train_pass train_op st;
  do r <- val_pass st;
  let '(st, (mean_loss_val, acc_val)) := r in
  let st := with_counters st (global_step st) (global_epoch st + 1) in
  (* save model *)
  Ok (if checkpoint cfg then save_model mean_loss_val acc_val st else st).

(** [for x in l: body]. *)
Fixpoint for_each {A : Type} (l : list A) (body : A -> State -> result State)
    (st : State) : result State :=
  match l with
  | [] => Ok st
  | x :: xs => do st <- body x st; for_each xs body st
  end.

(** The combined training loop. *)
Definition training_loop (st : State) : result State :=
  for_each [(clf_train_op, clf_epochs cfg); (finetune_train_op, finetune_epochs cfg)]
    (fun '(train_op, epochs) st =>
       for_each (py_range (global_epoch st) (global_epoch st + epochs))  (* allow for resuming *)
         (fun _ st => run_epoch train_op st) st)
    st.

(** [train] from the open session on. *)
Definition train_session (fs : Files) : result State :=
  let '(s, (step, epoch)) := initialize_variables in
  let st := {| global_step := step; global_epoch := epoch;
               sess := s; files := fs; out := [] |} in
  do st <- (if resume cfg then
              do s <- saver_restore fs (sess st);
              do p <- pickle_load fs;
              Ok (with_counters (with_sess st s) (fst p) (snd p))
            else Ok st);
  training_loop st.
End Train.

Arguments ck_weights {B} _ _.
Arguments ck_clf_slots {B} _.
Arguments ck_finetune_slots {B} _.
Arguments model_ckpt {B} _.
Arguments global_step_epoch_pickle {B} _.
Arguments keras_models {B} _.
Arguments global_step {B} _.
Arguments global_epoch {B} _.
Arguments sess {B} _.
Arguments files {B} _.
Arguments out {B} _.
Arguments with_sess {B} _ _.
Arguments emit {B} _ _.
Arguments with_counters {B} _ _ _.
Arguments with_files {B} _ _.
Arguments batches_left {B} _.

(** [train(...)]: what building the graph allocated, and the final state
    or the exception that ended the run. *)
Definition train (apps : Applications) (B : Backend) (data : Data B) (cfg : Config)
    (fs : Files B) : list construct * result (State B) :=
  let '(built, rg) := build_graph apps cfg in
  (built, do g <- rg; train_session B data cfg g fs).

(** ** Observing a run *)

(** The epochs a trace went through with a given train op, and the
    indices the epoch loop gave them. *)
Definition epoch_markers (es : list event) : list (fetch * Z) :=
  omap (fun e => match e with EpochBegin op i => Some (op, i) | _ => None end) es.



(** A call that only evaluates: no train op among its fetches, and the
    learning phase fed as 0 whenever a batch goes through the model. *)
Definition forward_only (c : list fetch * option Z) : bool :=
  negb (fetched clf_train_op (fst c)) && negb (fetched finetune_train_op (fst c))
  && (negb (existsb needs_batch (fst c))
      || match snd c with Some 0 => true | _ => false end).

Section Boundaries.
Variable B : Backend.
Variable data : Data B.
Variable cfg : Config.
Variable g : Graph.

(** The epoch loop again, keeping the state at the end of every
    completed epoch: the points at which the process can be stopped
    and later resumed from what it left on disk. *)
Fixpoint for_each_h {A : Type} (l : list A)
    (body : A -> State B -> list (State B) * result (State B)) (st : State B)
  : list (State B) * result (State B) :=
  match l with
  | [] => ([], Ok st)
  | x :: xs =>
      match body x st with
      | (h1, Ok st1) => let '(h2, r) := for_each_h xs body st1 in ((h1 ++ h2)%list, r)
      | (h1, Raise e) => (h1, Raise e)
      end
  end.

Definition training_loop_h (st : State B) : list (State B) * result (State B) :=
  for_each_h [(clf_train_op, clf_epochs cfg); (finetune_train_op, finetune_epochs cfg)]
    (fun '(train_op, epochs) st =>
       for_each_h (py_range (global_epoch st) (global_epoch st + epochs))
         (fun _ st => match run_epoch B data cfg g train_op st with
                      | Ok st1 => ([st1], Ok st1)
                      | Raise e => ([], Raise e)
                      end) st)
    st.

(** A run that starts without resuming. *)
Definition fresh_state (fs : Files B) : State B :=
  {| global_step := 0; global_epoch := 0;
     sess := fst (initialize_variables B); files := fs; out := [] |}.

End Boundaries.

Definition no_files (B : Backend) : Files B :=
  {| model_ckpt := None; global_step_epoch_pickle := None; keras_models := [] |}.

(** ** A small rational backend

    For evaluating the script on concrete inputs: a linear model on a
    scalar feature with squared error, fractions kept in lowest terms,
    plain gradient descent standing in for Adam, and Nesterov momentum as
    [MomentumOptimizer(use_nesterov=True)] computes it. *)
Definition toy_logit (w : var -> Q) (b : Q * bool) : Q :=
  Qred (w dense_kernel * fst b + w dense_bias).

Definition toy_accum (gv : list (var * Q)) (v : var) : option Q :=
  option_map snd (find (fun p => var_eqb (fst p) v) gv).

Definition toy_backend : Backend := {|
  Tensor := Q;
  Batch := Q * bool;
  Slots := var -> Q;
  initial_value := fun v => match v with base_var _ => 1%Q | _ => 0%Q end;
  labels_and_preds := fun w _ b => [(snd b, Qle_bool (1 # 2) (toy_logit w b))];
  loss_of := fun w _ b =>
    Qred ((toy_logit w b - to_float (snd b)) * (toy_logit w b - to_float (snd b)));
  gradient := fun w _ b v =>
    let d := (2 * (toy_logit w b - to_float (snd b)))%Q in
    Qred (match v with dense_bias => d | _ => d * fst b end);
  update_value := fun w _ b v => Qred (w v * (99 # 100) + fst b * (1 # 100));
  adam_slots := fun _ => 0%Q;
  adam_rule := fun lr _ _ x gr => Qred (x - lr * gr);
  adam_advance := fun _ sl _ => sl;
  momentum_slots := fun _ => 0%Q;
  momentum_rule := fun lr m sl v x gr =>
    Qred (x - (gr * lr + (sl v * m + gr) * m * lr));
  momentum_advance := fun _ m sl gv v =>
    match toy_accum gv v with
    | Some gr => Qred (sl v * m + gr)
    | None => sl v
    end
|}.

Definition toy_data : Data toy_backend :=
  Build_Data toy_backend (fun _ => [(2%Q, true); (0%Q, false)]) [(1%Q, true)].

Definition weightless (name : string) : BaseLayer :=
  {| bl_name := name; bl_trainable := []; bl_non_trainable := []; bl_updates := [] |}.

Definition conv (name : string) (kernel bias : nat) : BaseLayer :=
  {| bl_name := name; bl_trainable := [kernel; bias];
     bl_non_trainable := []; bl_updates := [] |}.

(** Batch normalization: scale and offset are trainable, the moving
    mean and variance are not and are assigned by the layer's update
    ops. *)
Definition batch_norm (name : string) (gamma beta mean variance : nat) : BaseLayer :=
  {| bl_name := name; bl_trainable := [gamma; beta];
     bl_non_trainable := [mean; variance]; bl_updates := [mean; variance] |}.

(** Two cut-down applications with the layer kinds of the real ones. *)
Definition toy_apps : Applications :=
  {| VGG16 := [weightless "input_1"; conv "block1_conv1" 0 1;
               conv "block1_conv2" 2 3; weightless "block1_pool"];
     ResNet50 := [weightless "input_1"; conv "conv1" 0 1;
                  batch_norm "bn_conv1" 2 3 4 5; conv "res2a_branch2a" 6 7] |}.

Definition toy_config (name : string) (clf ft layers : Z) (ft_lr : Q) (res : bool) : Config :=
  {| train_path := "patches/train"; val_path := "patches/val"; exp_path := "exp";
     model_name := name; patch_size := 64; batch_size := 32;
     clf_epochs := clf; finetune_epochs := ft;
     clf_lr := 1 # 1000; finetune_lr := ft_lr; finetune_momentum := 9 # 10;
     finetune_layers := layers; l2 := 1 # 100; augmentation := true;
     log_interval := 100; threads := 5; checkpoint := true; resume := res |}.

(** The graph [train] builds for a backbone name and a number of layers
    to fine-tune. *)
Definition toy_graph (name : string) (layers : Z) : Graph :=
  match snd (build_graph toy_apps (toy_config name 1 1 layers (1 # 10000) false)) with
  | Ok g => g
  | Raise _ => optim_block (toy_config name 1 1 layers (1 # 10000) false) ([], [], [])
  end.

Definition toy_session : Session toy_backend :=
  fst (initialize_variables toy_backend).

(** ** Vocabulary of the statements *)

(** The class token of a path: the second-to-last of its segments. *)
Definition class_token (path : string) : option string :=
  nth_error (rev (string_split path "/")) 1.

Definition three_channels (image : Image) : Prop :=
  Forall (Forall (fun px : list Q => length px = 3%nat)) image.

Definition values_in (lo hi : Q) (image : Image) : Prop :=
  Forall (Forall (Forall (fun x : Q => lo <= x /\ x <= hi)%Q)) image.

(** An RGB pixel scaled to [0, 255], reordered to BGR and mean-centred. *)
Definition imagenet_pixel (px : list Q) : list Q :=
  match px with
  | [r; g; b] => [b * 255.0 - 103.939; g * 255.0 - 116.779; r * 255.0 - 123.68]%Q
  | _ => px
  end.

(** The mean of every observation in a list of batches. *)
Definition aggregate (batches : list (list Q)) : Q :=
  safe_div (Qsum (concat batches)) (inject_Z (Z.of_nat (length (concat batches)))).

(** A path component: not empty, and free of the separator. *)
Definition component (s : string) : bool :=
  nonempty s && forallb (fun c => negb (is_delim "/" c)) (list_ascii_of_string s).

(** The metric accumulators count samples: none is negative. *)
Definition nonneg_counts (m : Metrics) : Prop :=
  (0 <= ppv_tp (ppv_local m) /\ 0 <= ppv_fp (ppv_local m) /\
   0 <= sens_tp (sens_local m) /\ 0 <= sens_fn (sens_local m))%Q.

(** The model's variables and both optimizers' variables are the same
    in two sessions. *)
Definition same_model {B : Backend} (s s' : Session B) : Prop :=
  weights s' = weights s /\
  clf_slots s' = clf_slots s /\
  finetune_slots s' = finetune_slots s.

Definition no_marker (e : event) : bool :=
  match e with EpochBegin _ _ => false | _ => true end.

Definition evaluation_event (e : event) : bool :=
  match e with
  | EpochBegin _ _ => false
  | SessRun fs fd => forward_only (fs, fd)
  | _ => true
  end.

(** A stretch of the run inside one epoch: the epoch counter and the
    files are untouched and the trace only grows, without epoch marker. *)
Record quiet {B : Backend} (st st' : State B) : Prop := {
  q_epoch : global_epoch st' = global_epoch st;
  q_files : files st' = files st;
  q_out : exists es, out st' = (out st ++ es)%list /\ forallb no_marker es = true
}.

(** A stretch of the run that only evaluates: on top of the above, the
    step counter, the model's variables and the optimizers' variables are
    untouched, and every [sess.run] in it is forward-only. *)
Record evaluated {B : Backend} (st st' : State B) : Prop := {
  ev_step : global_step st' = global_step st;
  ev_epoch : global_epoch st' = global_epoch st;
  ev_files : files st' = files st;
  ev_model : same_model (sess st) (sess st');
  ev_out : exists es, out st' = (out st ++ es)%list /\ forallb evaluation_event es = true
}.

Definition is_train_op (op : fetch) : Prop :=
  op = clf_train_op \/ op = finetune_train_op.

(** [n] consecutive epochs with one train op, numbered from [start]. *)
Definition markers (op : fetch) (start : Z) (n : nat) : list (fetch * Z) :=
  map (fun i => (op, start + Z.of_nat i)) (seq 0 n).

(** What is on disk is what the state holds: the pickled counters are
    the current ones and the graph checkpoint is the current session's. *)
Definition persisted {B : Backend} (st : State B) : Prop :=
  global_step_epoch_pickle (files st) = Some (global_step st, global_epoch st) /\
  model_ckpt (files st) = Some (saver_save B (sess st)).

(** The layers of the pretrained application and those put on top of
    it, as the model block creates them. *)
Definition base_layers (apps : Applications) (cfg : Config) : list Layer :=
  if String.eqb (model_name cfg) "vgg" then map keras_layer (VGG16 apps)
  else if String.eqb (model_name cfg) "resnet" then map keras_layer (ResNet50 apps)
  else [].

Definition head_layers (cfg : Config) : list Layer :=
  if String.eqb (model_name cfg) "logreg" then [InputLayer; Flatten; Dense]
  else [Flatten; Dense].

(** The backbone layers the fine-tuning block unfreezes, and the ones it
    leaves frozen. *)
Definition unfrozen (cfg : Config) (base : list Layer) : list Layer :=
  if 0 <? finetune_layers cfg then py_last (finetune_layers cfg) base else [].

Definition frozen (cfg : Config) (base : list Layer) : list Layer :=
  if 0 <? finetune_layers cfg
  then firstn (length base - Z.to_nat (finetune_layers cfg)) base
  else base.


(** The pixels of an image, row after row. *)
Definition pixels (image : Image) : list (list Q) := concat image.

(** Channel counts that broadcast against the three channel means. *)
Definition broadcastable (image : Image) : Prop :=
  Forall (Forall (fun px : list Q => length px = 1%nat \/ length px = 3%nat)) image.


(** The metric accumulators after the update ops have run on a sequence
    of batches, each given by its loss and its (label, prediction)
    pairs. *)
Definition fold_updates (results : list (Q * list (bool * bool))) (m : Metrics) : Metrics :=
  fold_left (fun m r => metric_update (fst r) (snd r) m) results m.

(** How many pairs agree. *)
Definition agreeing (lp : list (bool * bool)) : Q :=
  count_true (map (fun '(l, p) => Bool.eqb l p) lp).


(** The training batches drawn by [n] consecutive initializations of the
    training iterator, from the [start]-th on. *)
Fixpoint batches_seen {B : Backend} (data : Data B) (start n : nat) : Z :=
  match n with
  | O => 0
  | S n => Z.of_nat (length (train_batches data start)) + batches_seen data (S start) n
  end.

(** A configuration with the checkpoint flag set as given. *)
Definition with_checkpoint (b : bool) (cfg : Config) : Config :=
  {| train_path := train_path cfg; val_path := val_path cfg; exp_path := exp_path cfg;
     model_name := model_name cfg; patch_size := patch_size cfg;
     batch_size := batch_size cfg; clf_epochs := clf_epochs cfg;
     finetune_epochs := finetune_epochs cfg; clf_lr := clf_lr cfg;
     finetune_lr := finetune_lr cfg; finetune_momentum := finetune_momentum cfg;
     finetune_layers := finetune_layers cfg; l2 := l2 cfg;
     augmentation := augmentation cfg; log_interval := log_interval cfg;
     threads := threads cfg; checkpoint := b; resume := resume cfg |}.

(** The epoch numbers the saved Keras model files carry. *)
Definition model_file_epochs {B : Backend} (fs : Files B) : list Z :=
  map snd (keras_models fs).









(** ** Variable initialization, variable by variable

    [initialize_variables] again, this time with the global variables as
    the objects they are: each carries its initializer, the
    [_keras_initialized] attribute Keras may have put on it, and the value
    it has in the session once initialized. *)
Module Init.

Record TFVariable (T : Type) : Type := {
  initial : T;                          (* what its initializer assigns *)
  keras_initialized : option bool;      (* the attribute; None: not there *)
  var_value : option T                  (* None: not initialized in the session *)
}.

Arguments initial {T} _.
Arguments keras_initialized {T} _.
Arguments var_value {T} _.

(** [not hasattr(v, '_keras_initialized') or not v._keras_initialized]. *)
Definition not_keras_initialized {T : Type} (v : TFVariable T) : bool :=
  match keras_initialized v with
  | Some true => false
  | _ => true
  end.

(** [v._keras_initialized = True]. *)
Definition set_keras_initialized {T : Type} (v : TFVariable T) : TFVariable T :=
  {| initial := initial v; keras_initialized := Some true; var_value := var_value v |}.

(** Running a variable's initializer. *)
Definition run_initializer {T : Type} (v : TFVariable T) : TFVariable T :=
  {| initial := initial v; keras_initialized := keras_initialized v;
     var_value := Some (initial v) |}.

(** The variables of the graph: the global ones, referred to by their
    position in [tf.global_variables()], and the local ones. *)
Record Variables (T : Type) : Type := {
  global_variables : list (TFVariable T);
  local_variables : list (TFVariable T)
}.

Arguments global_variables {T} _.
Arguments local_variables {T} _.

(** The body of [for v in variables]. *)
Definition visit {T : Type} (acc : list (TFVariable T) * list nat) (v : nat)
  : list (TFVariable T) * list nat :=
  let '(heap, uninitialized_variables) := acc in
  match heap !! v with
  | Some x =>
      if not_keras_initialized x
      then (alter set_keras_initialized v heap, (uninitialized_variables ++ [v])%list)
      else (heap, uninitialized_variables)
  | None => (heap, uninitialized_variables)
  end.

(** Running [tf.variables_initializer(var_list)]. *)
Definition variables_initializer {T : Type} (var_list : list nat)
    (heap : list (TFVariable T)) : list (TFVariable T) :=
  fold_left (fun (h : list (TFVariable T)) v => alter run_initializer v h) var_list heap.

Definition initialize_variables {T : Type} (vs : Variables T) : Variables T * (Z * Z) :=
  let variables := seq 0 (length (global_variables vs)) in
  let '(heap, uninitialized_variables) :=
    fold_left visit variables (global_variables vs, []) in
  (* sess.run([global_init_op, local_init_op]) *)
  let heap := variables_initializer uninitialized_variables heap in
  let locals := map run_initializer (local_variables vs) in
  let global_step := 0 in
  let global_epoch := 0 in
  ({| global_variables := heap; local_variables := locals |}, (global_step, global_epoch)).

End Init.

(** What the call makes of one global variable. *)
Definition initialized {T : Type} (v : Init.TFVariable T) : Init.TFVariable T :=
  if Init.not_keras_initialized v
  then Init.run_initializer (Init.set_keras_initialized v)
  else v.

(** Keras marks a variable only once it has initialized it. *)
Definition marked_have_values {T : Type} (vars : list (Init.TFVariable T)) : Prop :=
  Forall (fun v => Init.keras_initialized v = Some true -> Init.var_value v <> None) vars.

(** A backbone variable loaded with pretrained weights, and a variable of
    the new dense layer, as [test_initialize_variables] finds them. *)
Definition pretrained_variable : Init.TFVariable Q :=
  {| Init.initial := 0%Q; Init.keras_initialized := Some true;
     Init.var_value := Some (7 # 10) |}.

Definition new_variable : Init.TFVariable Q :=
  {| Init.initial := 0%Q; Init.keras_initialized := None; Init.var_value := None |}.

Definition toy_variables : Init.Variables Q :=
  {| Init.global_variables := [pretrained_variable; new_variable; pretrained_variable];
     Init.local_variables := [new_variable] |}.


(** ** The input pipeline at run time

    What the two datasets of the data block yield once their iterator is
    initialized.  Listing the files, the order a shuffle draws and the
    flips drawn for a file are the runtime's and the file system's:
    [list_files pattern] is what the glob matches, [shuffled n l] the order
    drawn for [l] at the [n]-th initialization, [coins n x] the flips
    drawn for file [x] then. *)
Definition Sample : Type := Image * Q * string.

(** The chunks of [Dataset.batch]: [n] elements each, the remainder kept
    as a last, smaller batch. *)
Fixpoint chunks {A : Type} (fuel n : nat) (l : list A) : list (list A) :=
  match fuel with
  | O => []
  | S fuel =>
      match l with
      | [] => []
      | _ => firstn n l :: chunks fuel n (skipn n l)
      end
  end.

(** [dataset.batch(batch_size)]. *)
Definition batch {A : Type} (batch_size : Z) (l : list A) : result (list (list A)) :=
  if 0 <? batch_size
  then Ok (chunks (length l) (Z.to_nat batch_size) l)
  else Raise (InvalidArgumentError "Batch size must be greater than zero.").

Section Pipeline.
Variable read_decode_resize : string -> Z -> result Image.
Variable list_files : string -> list string.
Variable shuffled : nat -> list string -> list string.
Variable coins : nat -> string -> bool * bool.

(** The elements of a dataset before batching, each the sample or the
    error its [preprocess] ends in. *)
Definition dataset_elements (ds : Dataset) (n : nat) : list (result Sample) :=
  let files := list_files (ds_files ds) in
  let files := match ds_shuffle ds with
               | Some _ => shuffled n files
               | None => files
               end in
  map (fun x => preprocess read_decode_resize (coins n x) x (ds_patch_size ds)
                  (ds_augmentation ds) (ds_model_name ds)) files.

(** What successive [iterator.get_next()] give after the [n]-th
    initialization: a batch, or the first error among its elements. *)
Definition dataset_batches (ds : Dataset) (n : nat) : result (list (result (list Sample))) :=
  do cs <- batch (ds_batch_size ds) (dataset_elements ds n);
  Ok (map (mapM (fun r => r)) cs).
End Pipeline.

(** The tensors the data block derives from a batch. *)
Definition images (b : list Sample) : list Image := map (fun s => fst (fst s)) b.
Definition labels (b : list Sample) : list Q := map (fun s => snd (fst s)) b.
Definition filenames (b : list Sample) : list string := map snd b.

Definition actual_batch_size (b : list Sample) : Z := Z.of_nat (length (images b)).

(** [tf.reduce_mean] of a vector. *)
Definition reduce_mean (l : list Q) : fval :=
  fdiv (Qsum l) (inject_Z (Z.of_nat (length l))).

Definition percent_pos (b : list Sample) : fval := reduce_mean (labels b).

(** [tf.cast(labels, tf.bool)]: every nonzero label is [True]. *)
Definition pos_mask (b : list Sample) : list bool :=
  map (fun x => negb (Qeq_bool x 0)) (labels b).

Definition neg_mask (b : list Sample) : list bool := map negb (pos_mask b).

(** [tf.boolean_mask(tensor, mask)] along the first axis. *)
Definition boolean_mask {A : Type} (tensor : list A) (mask : list bool) : list A :=
  map fst (filter (fun p => snd p = true) (combine tensor mask)).

Definition mitosis_images (b : list Sample) : list Image := boolean_mask (images b) (pos_mask b).
Definition normal_images (b : list Sample) : list Image := boolean_mask (images b) (neg_mask b).
Definition mitosis_filenames (b : list Sample) : list string :=
  boolean_mask (filenames b) (pos_mask b).
Definition normal_filenames (b : list Sample) : list string :=
  boolean_mask (filenames b) (neg_mask b).

(** The samples of a batch carry the labels of their file names. *)
Definition labelled (b : list Sample) : Prop :=
  Forall (fun s : Sample => get_label (snd s) = Ok (snd (fst s))) b.

(** The file names of a batch whose class token is the given one. *)
Definition has_class (tok : string) (x : string) : bool :=
  match class_token x with
  | Some t => String.eqb t tok
  | None => false
  end.

Definition of_class (tok : string) (b : list Sample) : list string :=
  filter (fun x => has_class tok x = true) (filenames b).

(** A small file system, decoder and source of randomness. *)
Definition toy_files : list string :=
  ["patches/train/mitosis/1.jpg"; "patches/train/normal/2.jpg";
   "patches/train/normal/3.jpg"].

Definition toy_list_files (pattern : string) : list string := toy_files.

Definition toy_decode (filename : string) (patch_size : Z) : result Image :=
  Ok [[[1 # 2; 1 # 4; 0]; [1; 1 # 2; 1 # 4]]]%Q.

Definition toy_shuffled (n : nat) (l : list string) : list string := rev l.

Definition toy_coins (n : nat) (x : string) : bool * bool := (Nat.even n, true).

Definition toy_cfg (size : Z) : Config :=
  {| train_path := "patches/train"; val_path := "patches/val"; exp_path := "exp";
     model_name := "vgg"; patch_size := 64; batch_size := size;
     clf_epochs := 1; finetune_epochs := 0;
     clf_lr := 1 # 1000; finetune_lr := 1 # 10000; finetune_momentum := 9 # 10;
     finetune_layers := 0; l2 := 1 # 100; augmentation := true;
     log_interval := 100; threads := 5; checkpoint := true; resume := false |}.

(** * Properties *)

(** ** Label extraction *)

Lemma py_index_penultimate {A : Type} (l : list A) :
  py_index l (-2) = nth_error (rev l) 1.
Proof.
  unfold py_index. rewrite nth_error_rev.
  change (0 <=? -2) with false. cbn [andb].
  change (-2 <? 0) with true. cbn [andb].
  destruct (Z.leb_spec 0 (Z.of_nat (length l) + -2)) as [H | H];
    destruct (Nat.ltb_spec 1 (length l)) as [H' | H']; try lia.
  - f_equal. lia.
  - reflexivity.
Qed.

Lemma get_label_token (path tok : string) :
  class_token path = Some tok ->
  get_label path =
    if String.eqb tok "normal" || String.eqb tok "mitosis"
    then Ok (to_float (String.eqb tok "mitosis"))
    else Raise (InvalidArgumentError ("assertion failed: [" ++ tok ++ "]")).
Proof.
  unfold class_token, get_label. intros H.
  rewrite py_index_penultimate, H. reflexivity.
Qed.

(** C4: a path whose second-to-last segment is "mitosis" is labelled 1.0,
    one whose second-to-last segment is "normal" is labelled 0.0, and any
    other token there makes [get_label] fail with an invalid-argument
    error; no label is returned by default. *)
Theorem get_label_by_class_token (path tok : string) :
  class_token path = Some tok ->
  (tok = "mitosis" -> get_label path = Ok 1%Q) /\
  (tok = "normal" -> get_label path = Ok 0%Q) /\
  (tok <> "mitosis" -> tok <> "normal" ->
     get_label path = Raise (InvalidArgumentError ("assertion failed: [" ++ tok ++ "]"))).
Proof.
  intros H. rewrite (get_label_token path tok H). repeat split.
  - intros ->. reflexivity.
  - intros ->. reflexivity.
  - intros Hm Hn.
    destruct (String.eqb_spec tok "normal") as [-> | _]; [congruence |].
    destruct (String.eqb_spec tok "mitosis") as [-> | _]; [congruence |].
    reflexivity.
Qed.

Lemma get_label_by_class_token_witness :
  get_label "train/mitosis/1_03_05_713_348.jpg" = Ok 1%Q /\
  get_label "train/normal/1_03_05_713_348.jpg" = Ok 0%Q /\
  get_label "train/unknown/1_03_05_713_348.jpg"
    = Raise (InvalidArgumentError "assertion failed: [unknown]").
Proof.
  split; [| split].
  - apply (get_label_by_class_token "train/mitosis/1_03_05_713_348.jpg" "mitosis");
      reflexivity.
  - apply (get_label_by_class_token "train/normal/1_03_05_713_348.jpg" "normal");
      reflexivity.
  - apply (get_label_by_class_token "train/unknown/1_03_05_713_348.jpg" "unknown");
      [reflexivity | discriminate | discriminate].
Defined.

(** The directory layout [root/class/name] puts the class where
    [get_label] looks for it. *)
Lemma raw_split_nonempty (d s : string) : raw_split d s <> [].
Proof.
  destruct s as [| c r]; cbn; [discriminate |].
  destruct (is_delim d c); [discriminate |].
  destruct (raw_split d r); discriminate.
Qed.

Lemma raw_split_app (d a b : string) (c : ascii) :
  is_delim d c = true ->
  raw_split d (a ++ String c b) = (raw_split d a ++ raw_split d b)%list.
Proof.
  intros Hc. induction a as [| x a IH]; cbn.
  - rewrite Hc. reflexivity.
  - destruct (is_delim d x).
    + rewrite IH. reflexivity.
    + rewrite IH. pose proof (raw_split_nonempty d a) as Hne.
      destruct (raw_split d a); [congruence | reflexivity].
Qed.

Lemma raw_split_component (s : string) :
  forallb (fun c => negb (is_delim "/" c)) (list_ascii_of_string s) = true ->
  raw_split "/" s = [s].
Proof.
  induction s as [| c r IH]; cbn [list_ascii_of_string forallb raw_split]; [reflexivity |].
  intros H. apply andb_prop in H as [Hc Hr].
  apply negb_true_iff in Hc. rewrite Hc, (IH Hr). reflexivity.
Qed.

Lemma string_split_component (s : string) :
  component s = true -> string_split s "/" = [s].
Proof.
  unfold component, string_split. intros H. apply andb_prop in H as [Hn Hs].
  rewrite (raw_split_component s Hs). cbn.
  destruct (decide (nonempty s = true)); [reflexivity | contradiction].
Qed.

Lemma class_token_layout (root class name : string) :
  component class = true -> component name = true ->
  class_token (root ++ String "/" (class ++ String "/" name)) = Some class.
Proof.
  intros Hc Hn. unfold class_token, string_split.
  rewrite !raw_split_app by reflexivity.
  rewrite !filter_app, !rev_app_distr.
  fold (string_split class "/"). fold (string_split name "/").
  rewrite (string_split_component _ Hc), (string_split_component _ Hn).
  reflexivity.
Qed.

(** Under any root, a file directly in a [mitosis] directory is labelled
    1 and one directly in a [normal] directory is labelled 0. *)
Corollary get_label_layout (root name : string) :
  component name = true ->
  get_label (root ++ "/mitosis/" ++ name) = Ok 1%Q /\
  get_label (root ++ "/normal/" ++ name) = Ok 0%Q.
Proof.
  intros Hn. split.
  - rewrite (get_label_token _ "mitosis"); [reflexivity |].
    apply (class_token_layout root "mitosis" name); [reflexivity | exact Hn].
  - rewrite (get_label_token _ "normal"); [reflexivity |].
    apply (class_token_layout root "normal" name); [reflexivity | exact Hn].
Qed.

(** ** Normalization *)

Lemma mapM_map {A A' C : Type} (f : A' -> result C) (k : A -> A') (h : A -> C)
    (l : list A) :
  Forall (fun x => f (k x) = Ok (h x)) l -> mapM f (map k l) = Ok (map h l).
Proof.
  induction 1 as [| x l Hx _ IH]; cbn; [reflexivity |].
  rewrite Hx. cbn. rewrite IH. reflexivity.
Qed.

Lemma tmap_tmap (f k : Q -> Q) (image : Image) :
  tmap f (tmap k image) = tmap (fun x => f (k x)) image.
Proof.
  unfold tmap. rewrite map_map. apply map_ext. intros row.
  rewrite map_map. apply map_ext. intros px. apply map_map.
Qed.

Lemma sub_means_bgr (px : list Q) :
  length px = 3%nat ->
  sub_means (rev (map (fun x => x * 255.0)%Q px)) = Ok (imagenet_pixel px).
Proof.
  destruct px as [| r [| gr [| b [| ? ?]]]]; cbn; try discriminate. reflexivity.
Qed.

Lemma values_in_tmap (f : Q -> Q) (lo hi lo' hi' : Q) (image : Image) :
  (forall x, lo <= x /\ x <= hi -> lo' <= f x /\ f x <= hi')%Q ->
  values_in lo hi image -> values_in lo' hi' (tmap f image).
Proof.
  intros Hf Himg. unfold values_in, tmap in *.
  apply List.Forall_map. eapply List.Forall_impl; [| exact Himg]. cbn. intros row Hrow.
  apply List.Forall_map. eapply List.Forall_impl; [| exact Hrow]. cbn. intros px Hpx.
  apply List.Forall_map. eapply List.Forall_impl; [| exact Hpx]. cbn. intros x Hx.
  exact (Hf x Hx).
Qed.

(** C5: on an image tensor with values in [0, 1], [normalize] for an
    ImageNet-style backbone ("vgg", "resnet") scales to [0, 255], reverses
    the channel order and subtracts (103.939, 116.779, 123.68) channel by
    channel; for any other backbone it returns (x - 0.5) * 2, which lies
    in [-1, 1]. *)
Theorem normalize_spec (image : Image) (model_name : string) :
  three_channels image ->
  values_in 0 1 image ->
  if in_tuple model_name ["vgg"; "resnet"]
  then normalize image model_name = Ok (map (map imagenet_pixel) image) /\
       values_in 0 255 (tmap (fun x => x * 255.0)%Q image)
  else normalize image model_name = Ok (tmap (fun x => (x - 0.5) * 2)%Q image) /\
       values_in (-1) 1 (tmap (fun x => (x - 0.5) * 2)%Q image).
Proof.
  intros H3 H01. unfold normalize.
  destruct (in_tuple model_name ["vgg"; "resnet"]); split.
  - unfold reverse_channels, tmap. rewrite map_map.
    apply mapM_map.
    unfold three_channels in H3. eapply List.Forall_impl; [| exact H3]. cbn.
    intros row Hrow. rewrite map_map. apply mapM_map.
    eapply List.Forall_impl; [| exact Hrow]. cbn. intros px Hpx.
    apply sub_means_bgr, Hpx.
  - apply (values_in_tmap _ 0 1); [| exact H01]. intros x [Hlo Hhi]. split; lra.
  - rewrite tmap_tmap. reflexivity.
  - apply (values_in_tmap _ 0 1); [| exact H01]. intros x [Hlo Hhi]. split; lra.
Qed.

Lemma normalize_spec_witness :
  normalize [[[1 # 2; 1 # 4; 1]; [0; 0; 1]]]%Q "vgg"
    = Ok [[[1 * 255.0 - 103.939; (1 # 4) * 255.0 - 116.779; (1 # 2) * 255.0 - 123.68];
           [1 * 255.0 - 103.939; 0 * 255.0 - 116.779; 0 * 255.0 - 123.68]]]%Q /\
  normalize [[[1 # 2; 1 # 4; 1]; [0; 0; 1]]]%Q "logreg"
    = Ok [[[((1 # 2) - 0.5) * 2; ((1 # 4) - 0.5) * 2; (1 - 0.5) * 2];
           [(0 - 0.5) * 2; (0 - 0.5) * 2; (1 - 0.5) * 2]]]%Q.
Proof.
  assert (H3 : three_channels [[[1 # 2; 1 # 4; 1]; [0; 0; 1]]]%Q).
  { repeat constructor. }
  assert (H01 : values_in 0 1 [[[1 # 2; 1 # 4; 1]; [0; 0; 1]]]%Q).
  { repeat constructor; cbn; discriminate. }
  split.
  - exact (proj1 (normalize_spec _ "vgg" H3 H01)).
  - exact (proj1 (normalize_spec _ "logreg" H3 H01)).
Defined.

(** ** Resettable metrics *)

Lemma Qsum_app (a b : list Q) : Qsum (a ++ b) == Qsum a + Qsum b.
Proof.
  induction a as [| x a IH].
  - change (Qsum b == 0%Q + Qsum b). ring.
  - change (x + Qsum (a ++ b) == x + Qsum a + Qsum b). rewrite IH. ring.
Qed.

Lemma safe_div_comp (a a' b b' : Q) :
  a == a' -> b == b' -> safe_div a b == safe_div a' b'.
Proof.
  intros Ha Hb. unfold safe_div. rewrite (Qleb_comp b b' Hb 0%Q 0%Q (Qeq_refl 0%Q)).
  destruct (Qle_bool b' 0%Q); [reflexivity |]. rewrite Ha, Hb. reflexivity.
Qed.

(** The accumulators after a run of updates, from any starting point. *)
Lemma run_updates_mean_vars (batches : list (list Q)) (v : mean_vars) :
  let v' := fst (run_updates (create_reset_metric tf_metrics_mean) batches v) in
  total v' == total v + Qsum (concat batches) /\
  count v' == count v + inject_Z (Z.of_nat (length (concat batches))).
Proof.
  revert v. induction batches as [| x xs IH]; intros v.
  - cbn [run_updates fst concat length Z.of_nat].
    change (Qsum []) with 0%Q. change (inject_Z 0) with 0%Q. split; ring.
  - specialize (IH (accumulate tf_metrics_mean x v)).
    cbn [run_updates update_op create_reset_metric].
    destruct (run_updates (create_reset_metric tf_metrics_mean) xs
                (accumulate tf_metrics_mean x v)) as [v2 outs] eqn:E.
    cbn [fst concat accumulate tf_metrics_mean total count] in *.
    destruct IH as [Ht Hc]. split.
    + rewrite Ht, Qsum_app. ring.
    + rewrite Hc, length_app, Nat2Z.inj_add, inject_Z_plus. ring.
Qed.

Lemma run_updates_mean_nth (batches : list (list Q)) (v : mean_vars) (i : nat) :
  (i < length batches)%nat ->
  nth i (snd (run_updates (create_reset_metric tf_metrics_mean) batches v)) 0%Q ==
    safe_div (total v + Qsum (concat (firstn (S i) batches)))
             (count v + inject_Z (Z.of_nat (length (concat (firstn (S i) batches))))).
Proof.
  revert v i. induction batches as [| x xs IH]; intros v i Hi; [cbn in Hi; lia |].
  cbn [run_updates update_op create_reset_metric].
  specialize (IH (accumulate tf_metrics_mean x v)).
  destruct (run_updates (create_reset_metric tf_metrics_mean) xs
              (accumulate tf_metrics_mean x v)) as [v2 outs] eqn:E.
  destruct i as [| i].
  - cbn. rewrite app_nil_r. reflexivity.
  - cbn [snd nth] in *. rewrite IH by (cbn in Hi; lia).
    change (firstn (S (S i)) (x :: xs)) with (x :: firstn (S i) xs).
    cbn [concat accumulate tf_metrics_mean total count].
    apply safe_div_comp.
    + rewrite Qsum_app. ring.
    + rewrite length_app, Nat2Z.inj_add, inject_Z_plus. ring.
Qed.

(** C3: the resettable mean accumulates and then divides.  After a reset,
    the [i]-th update returns the mean of every observation of the
    batches fed so far, and a read returns the same aggregate; on the
    batches [1,0,0,0], [1,0,0,0], [0,0,0,0] the updates return 1/4, 1/4
    and 1/6, and after a reset the batches [0,0,0,0], [1,0,0,0] give 0 and
    1/8. *)
Theorem resettable_mean_accumulates :
  let m := create_reset_metric tf_metrics_mean in
  (forall (v0 : mean_vars) (batches : list (list Q)) (i : nat),
     (i < length batches)%nat ->
     nth i (snd (run_updates m batches (reset_op m v0))) 0%Q ==
       aggregate (firstn (S i) batches)) /\
  (forall (v0 : mean_vars) (batches : list (list Q)),
     metric_op m (fst (run_updates m batches (reset_op m v0))) == aggregate batches) /\
  (let x1 := [1; 0; 0; 0]%Q in
   let x2 := [0; 0; 0; 0]%Q in
   let '(v, outs) := run_updates m [x1; x1; x2] (init_vars tf_metrics_mean) in
   let '(_, outs') := run_updates m [x2; x1] (reset_op m v) in
   Forall2 Qeq outs [0.25; 0.25; 1 # 6]%Q /\ Forall2 Qeq outs' [0; 0.125]%Q).
Proof.
  cbv zeta. split; [| split].
  - intros v0 batches i Hi. rewrite run_updates_mean_nth by exact Hi.
    unfold aggregate. apply safe_div_comp; cbn; ring.
  - intros v0 batches.
    destruct (run_updates_mean_vars batches
                (reset_op (create_reset_metric tf_metrics_mean) v0)) as [Ht Hc].
    unfold aggregate. cbn in *. apply safe_div_comp.
    + rewrite Ht. ring.
    + rewrite Hc. ring.
  - cbn. split; repeat constructor.
Qed.

Lemma resettable_mean_accumulates_witness :
  nth 2 (snd (run_updates (create_reset_metric tf_metrics_mean)
                [[1; 0; 0; 0]; [1; 0; 0; 0]; [0; 0; 0; 0]]%Q
                (reset_op (create_reset_metric tf_metrics_mean)
                   {| total := 7; count := 3 |}))) 0%Q
  == aggregate [[1; 0; 0; 0]; [1; 0; 0; 0]; [0; 0; 0; 0]]%Q.
Proof.
  apply (proj1 resettable_mean_accumulates {| total := 7; count := 3 |}
           [[1; 0; 0; 0]; [1; 0; 0; 0]; [0; 0; 0; 0]]%Q 2%nat).
  cbn. lia.
Defined.

(** ** The derived F1 value *)

Lemma safe_div_nonneg (a b : Q) : (0 <= a -> 0 <= safe_div a b)%Q.
Proof.
  intros Ha. unfold safe_div. destruct (Qle_bool b 0) eqn:E; [apply Qle_refl |].
  assert (Hb : (0 < b)%Q).
  { apply Qnot_le_lt. intros H. apply Qle_bool_iff in H. congruence. }
  apply Qmult_le_0_compat; [exact Ha |].
  apply Qinv_le_0_compat, Qlt_le_weak, Hb.
Qed.

Lemma count_true_nonneg (l : list bool) : (0 <= count_true l)%Q.
Proof.
  unfold count_true. change 0%Q with (inject_Z 0). rewrite <- Zle_Qle. lia.
Qed.

Lemma initial_metrics_nonneg : nonneg_counts initial_metrics.
Proof. repeat split; apply Qle_refl. Qed.

Lemma metric_reset_nonneg (m : Metrics) : nonneg_counts (metric_reset m).
Proof. repeat split; apply Qle_refl. Qed.

Lemma metric_update_nonneg (x : Q) (lp : list (bool * bool)) (m : Metrics) :
  nonneg_counts m -> nonneg_counts (metric_update x lp m).
Proof.
  intros (H1 & H2 & H3 & H4). unfold nonneg_counts, metric_update.
  cbn [update_op ppv_metric sens_metric create_reset_metric fst accumulate
       tf_metrics_precision tf_metrics_recall ppv_local sens_local
       ppv_tp ppv_fp sens_tp sens_fn].
  repeat split;
    match goal with
    | |- (0 <= _ + count_true ?l)%Q => pose proof (count_true_nonneg l); lra
    end.
Qed.

Lemma precision_recall_nonneg (m : Metrics) :
  nonneg_counts m -> (0 <= ppv m /\ 0 <= sens m)%Q.
Proof.
  intros (H1 & H2 & H3 & H4). split; apply safe_div_nonneg; assumption.
Qed.




(** ** Unknown backbone *)


Lemma unknown_model_name_builds_input_pipeline :
  let cfg := toy_config "inception" 1 1 0 (1 # 10000) false in
  let r := train toy_apps toy_backend toy_data cfg (no_files toy_backend) in
  is_ok (snd r) = false /\
  fst r <> [] /\
  In (NewDataset (train_dataset cfg)) (fst r) /\
  In NewIterator (fst r) /\
  In (NewTensor "images") (fst r).
Proof.
  cbv zeta. split; [reflexivity |]. split; [discriminate |].
  cbn. repeat split; auto 20.
Qed.

Lemma model_block_unknown (apps : Applications) (cfg : Config) :
  in_tuple (model_name cfg) ["logreg"; "vgg"; "resnet"] = false ->
  model_block apps cfg = Raise (Exception ("model name unknown: " ++ model_name cfg)).
Proof.
  unfold in_tuple, model_block. cbn [existsb]. intros H.
  apply orb_false_elim in H as [H1 H]. apply orb_false_elim in H as [H2 H].
  apply orb_false_elim in H as [H3 _]. rewrite H1, H2, H3. reflexivity.
Qed.

(** C2 (amended): with a [model_name] outside logreg, vgg and resnet,
    [train] raises the exception "model name unknown: ..." after the data
    block and before anything else: what has been built is exactly the
    input pipeline (datasets, iterator, batch tensors), and no layer,
    optimizer, metric, summary writer, saver or session. *)
Theorem unknown_model_name_fails_after_data_block (apps : Applications) (B : Backend)
    (data : Data B) (cfg : Config) (fs : Files B) :
  in_tuple (model_name cfg) ["logreg"; "vgg"; "resnet"] = false ->
  train apps B data cfg fs
    = (data_block cfg, Raise (Exception ("model name unknown: " ++ model_name cfg))) /\
  forallb is_data_construct (fst (train apps B data cfg fs)) = true.
Proof.
  intros H. unfold train, build_graph. rewrite (model_block_unknown apps cfg H).
  split; reflexivity.
Qed.

Lemma unknown_model_name_fails_after_data_block_witness :
  snd (train toy_apps toy_backend toy_data (toy_config "inception" 1 1 0 (1 # 10000) false)
         (no_files toy_backend))
  = Raise (Exception "model name unknown: inception").
Proof.
  rewrite (proj1 (unknown_model_name_fails_after_data_block toy_apps toy_backend toy_data
                    (toy_config "inception" 1 1 0 (1 # 10000) false)
                    (no_files toy_backend) eq_refl)).
  reflexivity.
Defined.

(** ** One call of [sess.run] *)

Section RunFacts.
Variable B : Backend.
Variable cfg : Config.
Variable g : Graph.
Variable data : Data B.

Ltac sess_run_cases :=
  unfold sess_run;
  repeat match goal with
         | |- context [existsb needs_batch ?fs] =>
             destruct (existsb needs_batch fs) eqn:?
         | |- context [iterator ?s] =>
             is_var s; let it := fresh "it" in
             destruct (iterator s) as [[| ? ?] |] eqn:?
         | |- context [fetched ?f ?fs] => destruct (fetched f fs) eqn:?
         end.

Lemma sess_run_out_of_range (fetches : list fetch) (fd : option Z) (s : Session B) :
  existsb needs_batch fetches = true ->
  iterator s = Some [] ->
  sess_run B cfg g data fetches fd s = Raise OutOfRangeError.
Proof. intros Hn Hi. unfold sess_run. rewrite Hn, Hi. reflexivity. Qed.

Lemma sess_run_total (fetches : list fetch) (fd : option Z) (s : Session B) :
  existsb needs_batch fetches = false \/ (exists b rest, iterator s = Some (b :: rest)) ->
  exists s' vs, sess_run B cfg g data fetches fd s = Ok (s', vs).
Proof.
  intros [Hn | (b & rest & Hi)]; unfold sess_run.
  - rewrite Hn. cbn. eauto.
  - rewrite Hi. destruct (existsb needs_batch fetches); cbn; eauto.
Qed.

Lemma sess_run_forward (fetches : list fetch) (fd : option Z) (s s' : Session B)
    (vs : list value) :
  fetched clf_train_op fetches = false ->
  fetched finetune_train_op fetches = false ->
  sess_run B cfg g data fetches fd s = Ok (s', vs) ->
  same_model s s'.
Proof.
  intros Hc Hf. unfold same_model. sess_run_cases; cbn; intros H;
    try discriminate; injection H as <- _; cbn; try congruence; auto.
Qed.

Lemma sess_run_train_inits (fetches : list fetch) (fd : option Z) (s s' : Session B)
    (vs : list value) :
  fetched train_init_op fetches = false ->
  sess_run B cfg g data fetches fd s = Ok (s', vs) ->
  train_inits s' = train_inits s.
Proof.
  intros Hc. sess_run_cases; cbn; intros H;
    try discriminate; injection H as <- _; cbn; try congruence; auto.
Qed.

Lemma sess_run_draws (fetches : list fetch) (fd : option Z) (s s' : Session B)
    (vs : list value) (b : Batch B) (rest : list (Batch B)) :
  existsb needs_batch fetches = true ->
  fetched train_init_op fetches = false ->
  fetched val_init_op fetches = false ->
  iterator s = Some (b :: rest) ->
  sess_run B cfg g data fetches fd s = Ok (s', vs) ->
  iterator s' = Some rest.
Proof.
  intros Hn Ht Hv Hi. unfold sess_run. rewrite Hn, Hi, Ht, Hv.
  repeat match goal with
         | |- context [fetched ?f ?fs] => destruct (fetched f fs) eqn:?
         end; cbn; intros H; injection H as <- _; reflexivity.
Qed.

Lemma sess_run_nonneg (fetches : list fetch) (fd : option Z) (s s' : Session B)
    (vs : list value) :
  nonneg_counts (metrics s) ->
  sess_run B cfg g data fetches fd s = Ok (s', vs) ->
  nonneg_counts (metrics s').
Proof.
  intros Hm. sess_run_cases; cbn; intros H;
    try discriminate; injection H as <- _; cbn;
    auto using metric_reset_nonneg, metric_update_nonneg.
Qed.
End RunFacts.

(** ** Stretches of a run *)

Section Stretches.
Variable B : Backend.
Variable data : Data B.
Variable cfg : Config.
Variable g : Graph.

Lemma same_model_refl (s : Session B) : same_model s s.
Proof. repeat split. Qed.

Lemma same_model_trans (s1 s2 s3 : Session B) :
  same_model s1 s2 -> same_model s2 s3 -> same_model s1 s3.
Proof. intros (? & ? & ?) (? & ? & ?). repeat split; congruence. Qed.

Lemma evaluation_no_marker (es : list event) :
  forallb evaluation_event es = true -> forallb no_marker es = true.
Proof.
  induction es as [| e es IH]; cbn; [reflexivity |].
  intros H. apply andb_prop in H as [He Hes]. rewrite (IH Hes).
  destruct e; cbn in *; congruence.
Qed.

Lemma evaluated_quiet (st st' : State B) : evaluated st st' -> quiet st st'.
Proof.
  intros [Hs He Hf Hm (es & Ho & Hes)]. split; auto.
  exists es. split; [exact Ho | apply evaluation_no_marker, Hes].
Qed.

Lemma quiet_refl (st : State B) : quiet st st.
Proof. split; auto. exists []. rewrite app_nil_r. auto. Qed.

Lemma quiet_trans (st1 st2 st3 : State B) :
  quiet st1 st2 -> quiet st2 st3 -> quiet st1 st3.
Proof.
  intros [He Hf (es & Ho & Hes)] [He' Hf' (es' & Ho' & Hes')].
  split; try congruence.
  exists (es ++ es')%list. rewrite Ho', Ho, <- app_assoc, forallb_app, Hes, Hes'. auto.
Qed.

Lemma evaluated_refl (st : State B) : evaluated st st.
Proof.
  split; auto using same_model_refl. exists []. rewrite app_nil_r. auto.
Qed.

Lemma evaluated_trans (st1 st2 st3 : State B) :
  evaluated st1 st2 -> evaluated st2 st3 -> evaluated st1 st3.
Proof.
  intros [Hs He Hf Hm (es & Ho & Hes)] [Hs' He' Hf' Hm' (es' & Ho' & Hes')].
  split; try congruence; eauto using same_model_trans.
  exists (es ++ es')%list. rewrite Ho', Ho, <- app_assoc, forallb_app, Hes, Hes'. auto.
Qed.

Lemma emit_evaluated (st : State B) (es : list event) :
  forallb evaluation_event es = true -> evaluated st (emit st es).
Proof. intros H. split; cbn; auto using same_model_refl. eauto. Qed.

Lemma emit_quiet (st : State B) (es : list event) :
  forallb no_marker es = true -> quiet st (emit st es).
Proof. intros H. split; cbn; auto. eauto. Qed.

(** A call of [sess.run], seen from the script. *)
Lemma run_ok (fetches : list fetch) (fd : option Z) (st : State B)
    (s : Session B) (vs : list value) :
  sess_run B cfg g data fetches fd (sess st) = Ok (s, vs) ->
  run B data cfg g fetches fd st
    = (with_sess (emit st [SessRun fetches fd]) s, Ok vs).
Proof. intros H. unfold run. cbn [sess emit]. rewrite H. reflexivity. Qed.

Lemma run_raise (fetches : list fetch) (fd : option Z) (st : State B) (e : exn) :
  sess_run B cfg g data fetches fd (sess st) = Raise e ->
  run B data cfg g fetches fd st = (emit st [SessRun fetches fd], Raise e).
Proof. intros H. unfold run. cbn [sess emit]. rewrite H. reflexivity. Qed.

Lemma run_quiet (fetches : list fetch) (fd : option Z) (st : State B) :
  quiet st (fst (run B data cfg g fetches fd st)).
Proof.
  unfold run. cbn [sess emit].
  destruct (sess_run B cfg g data fetches fd (sess st)) as [[s vs] | e];
    split; cbn; eauto.
Qed.

Lemma run_evaluated (fetches : list fetch) (fd : option Z) (st : State B) :
  forward_only (fetches, fd) = true ->
  evaluated st (fst (run B data cfg g fetches fd st)).
Proof.
  intros Hfo. unfold run. cbn [sess emit].
  assert (Hev : forallb evaluation_event [SessRun fetches fd] = true).
  { cbn. rewrite Hfo. reflexivity. }
  destruct (sess_run B cfg g data fetches fd (sess st)) as [[s vs] | e] eqn:E.
  - unfold forward_only in Hfo. cbn [fst snd] in Hfo.
    apply andb_prop in Hfo as [Hfo _]. apply andb_prop in Hfo as [Hc Hf].
    apply negb_true_iff in Hc, Hf.
    split; cbn; eauto using sess_run_forward.
  - split; cbn; eauto using same_model_refl.
Qed.

Lemma run_step (fetches : list fetch) (fd : option Z) (st : State B) :
  global_step (fst (run B data cfg g fetches fd st)) = global_step st.
Proof.
  unfold run. cbn [sess emit].
  destruct (sess_run B cfg g data fetches fd (sess st)) as [[s vs] | e]; reflexivity.
Qed.

Lemma run_exhausted (fetches : list fetch) (fd : option Z) (st : State B) :
  existsb needs_batch fetches = true ->
  iterator (sess st) = Some [] ->
  run B data cfg g fetches fd st = (emit st [SessRun fetches fd], Raise OutOfRangeError).
Proof. intros Hn Hi. apply run_raise, sess_run_out_of_range; assumption. Qed.

Lemma run_batch (fetches : list fetch) (fd : option Z) (st : State B)
    (b : Batch B) (rest : list (Batch B)) :
  existsb needs_batch fetches = true ->
  fetched train_init_op fetches = false ->
  fetched val_init_op fetches = false ->
  iterator (sess st) = Some (b :: rest) ->
  exists st1 vs,
    run B data cfg g fetches fd st = (st1, Ok vs) /\
    iterator (sess st1) = Some rest /\
    train_inits (sess st1) = train_inits (sess st).
Proof.
  intros Hn Ht Hv Hi.
  destruct (sess_run_total B cfg g data fetches fd (sess st)) as (s & vs & Hs);
    [right; eauto |].
  rewrite (run_ok _ _ _ _ _ Hs). do 2 eexists. split; [reflexivity |]. cbn. split.
  - eapply sess_run_draws; eassumption.
  - eapply sess_run_train_inits; eassumption.
Qed.

(** The validation loop runs to the end of the stream and only
    evaluates. *)
Lemma val_while_spec (fuel : nat) :
  forall (vi : Z) (st : State B) (bs : list (Batch B)),
    iterator (sess st) = Some bs ->
    (length bs < fuel)%nat ->
    exists st',
      val_while B data cfg g fuel vi st = Ok st' /\
      evaluated st st' /\
      iterator (sess st') = Some [] /\
      train_inits (sess st') = train_inits (sess st).
Proof.
  induction fuel as [| fuel IH]; intros vi st bs Hit Hlen; [lia |].
  cbn [val_while].
  destruct ((0 <? log_interval cfg) && (vi mod log_interval cfg =? 0));
    destruct bs as [| b rest].
  - rewrite run_exhausted by (reflexivity || assumption).
    eexists. split; [reflexivity |]. split; [apply emit_evaluated; reflexivity |].
    split; [exact Hit | reflexivity].
  - pose proof (run_evaluated [metric_update_ops; loss; mean_loss; acc]
                  (Some 0) st eq_refl) as Hev.
    destruct (run_batch [metric_update_ops; loss; mean_loss; acc] (Some 0) st b rest)
      as (st1 & vs & Hr & Hi1 & Hn1); try reflexivity; [exact Hit |].
    rewrite Hr in *. cbn [fst] in Hev.
    edestruct (IH (vi + 1) (emit st1
                 [PrintVal (global_epoch st1) vi (as_scalar (nth_value vs 1))
                    (as_scalar (nth_value vs 2)) (as_scalar (nth_value vs 3))]) rest)
      as (st' & Hw & Hev' & Hi' & Hn'); [exact Hi1 | cbn in Hlen; lia |].
    exists st'. split; [exact Hw |]. split; [| split; [exact Hi' | cbn in Hn'; congruence]].
    eapply evaluated_trans; [exact Hev |].
    eapply evaluated_trans; [| exact Hev']. apply emit_evaluated. reflexivity.
  - rewrite run_exhausted by (reflexivity || assumption).
    eexists. split; [reflexivity |]. split; [apply emit_evaluated; reflexivity |].
    split; [exact Hit | reflexivity].
  - pose proof (run_evaluated [metric_update_ops] (Some 0) st eq_refl) as Hev.
    destruct (run_batch [metric_update_ops] (Some 0) st b rest)
      as (st1 & vs & Hr & Hi1 & Hn1); try reflexivity; [exact Hit |].
    rewrite Hr in *. cbn [fst] in Hev.
    edestruct (IH (vi + 1) st1 rest) as (st' & Hw & Hev' & Hi' & Hn');
      [exact Hi1 | cbn in Hlen; lia |].
    exists st'. split; [exact Hw |]. split; [| split; [exact Hi' | congruence]].
    eapply evaluated_trans; [exact Hev | exact Hev'].
Qed.

(** The training loop runs to the end of the stream and counts one
    step per batch. *)
Lemma train_while_spec (fuel : nat) (op : fetch) :
  is_train_op op ->
  forall (st : State B) (bs : list (Batch B)),
    iterator (sess st) = Some bs ->
    (length bs < fuel)%nat ->
    exists st',
      train_while B data cfg g fuel op st = Ok st' /\
      quiet st st' /\
      global_step st' = global_step st + Z.of_nat (length bs) /\
      iterator (sess st') = Some [] /\
      train_inits (sess st') = train_inits (sess st).
Proof.
  intros Hop.
  assert (Hnb : forall l, existsb needs_batch (op :: metric_update_ops :: l) = true).
  { intros l. cbn. apply orb_true_r. }
  assert (Hti : forall l, fetched train_init_op l = false ->
                          fetched train_init_op (op :: l) = false).
  { intros l Hl. destruct Hop as [-> | ->]; exact Hl. }
  assert (Hvi : forall l, fetched val_init_op l = false ->
                          fetched val_init_op (op :: l) = false).
  { intros l Hl. destruct Hop as [-> | ->]; exact Hl. }
  induction fuel as [| fuel IH]; intros st bs Hit Hlen; [lia |].
  cbn [train_while].
  destruct ((0 <? log_interval cfg) && (global_step st mod log_interval cfg =? 0));
    destruct bs as [| b rest].
  - rewrite run_exhausted by (apply Hnb || assumption).
    eexists. split; [reflexivity |]. split; [apply emit_quiet; reflexivity |].
    cbn. split; [lia |]. split; [exact Hit | reflexivity].
  - pose proof (run_quiet
                  [op; metric_update_ops; loss; mean_loss; acc; minibatch_summaries]
                  (Some 1) st) as Hq.
    pose proof (run_step [op; metric_update_ops; loss; mean_loss; acc; minibatch_summaries]
                  (Some 1) st) as Hs.
    destruct (run_batch [op; metric_update_ops; loss; mean_loss; acc; minibatch_summaries]
                (Some 1) st b rest)
      as (st1 & vs & Hr & Hi1 & Hn1);
      [apply Hnb | apply Hti; reflexivity | apply Hvi; reflexivity | exact Hit |].
    rewrite Hr in *. cbn [fst] in Hq, Hs.
    match goal with
    | |- exists st', train_while _ _ _ _ _ _ ?st2 = _ /\ _ =>
        edestruct (IH st2 rest) as (st' & Hw & Hq' & Hs' & Hi' & Hn');
          [exact Hi1 | cbn in Hlen; lia |];
          assert (Hq2 : quiet st1 st2)
            by (split; cbn; eauto)
    end.
    exists st'. split; [exact Hw |]. split; [eauto using quiet_trans |].
    cbn in Hs', Hn'. cbn [length]. split; [lia |]. split; [exact Hi' | congruence].
  - rewrite run_exhausted by (apply Hnb || assumption).
    eexists. split; [reflexivity |]. split; [apply emit_quiet; reflexivity |].
    cbn. split; [lia |]. split; [exact Hit | reflexivity].
  - pose proof (run_quiet [op; metric_update_ops] (Some 1) st) as Hq.
    pose proof (run_step [op; metric_update_ops] (Some 1) st) as Hs.
    destruct (run_batch [op; metric_update_ops] (Some 1) st b rest)
      as (st1 & vs & Hr & Hi1 & Hn1);
      [apply Hnb | apply Hti; reflexivity | apply Hvi; reflexivity | exact Hit |].
    rewrite Hr in *. cbn [fst] in Hq, Hs.
    match goal with
    | |- exists st', train_while _ _ _ _ _ _ ?st2 = _ /\ _ =>
        edestruct (IH st2 rest) as (st' & Hw & Hq' & Hs' & Hi' & Hn');
          [exact Hi1 | cbn in Hlen; lia |];
          assert (Hq2 : quiet st1 st2)
            by (split; cbn; auto; exists []; rewrite app_nil_r; auto)
    end.
    exists st'. split; [exact Hw |]. split; [eauto using quiet_trans |].
    cbn in Hs', Hn'. cbn [length]. split; [lia |]. split; [exact Hi' | congruence].
Qed.

Lemma run_or_raise_no_batch (fetches : list fetch) (fd : option Z) (st : State B) :
  existsb needs_batch fetches = false ->
  exists vs,
    run_or_raise B data cfg g fetches fd st
      = Ok (fst (run B data cfg g fetches fd st), vs).
Proof.
  intros Hn.
  destruct (sess_run_total B cfg g data fetches fd (sess st)) as (s & vs & Hs);
    [left; exact Hn |].
  unfold run_or_raise. rewrite (run_ok _ _ _ _ _ Hs). cbn. eauto.
Qed.

Lemma run_no_init (fetches : list fetch) (fd : option Z) (st : State B) :
  fetched train_init_op fetches = false ->
  train_inits (sess (fst (run B data cfg g fetches fd st))) = train_inits (sess st).
Proof.
  intros Ht. unfold run. cbn [sess emit].
  destruct (sess_run B cfg g data fetches fd (sess st)) as [[s vs] | e] eqn:E;
    cbn; [| reflexivity].
  eapply sess_run_train_inits; eassumption.
Qed.

Lemma run_train_init (st : State B) :
  let st1 := fst (run B data cfg g [train_init_op] None st) in
  iterator (sess st1) = Some (train_batches data (train_inits (sess st))) /\
  train_inits (sess st1) = S (train_inits (sess st)).
Proof. split; reflexivity. Qed.

Lemma run_val_init (st : State B) :
  let st1 := fst (run B data cfg g [val_init_op] None st) in
  iterator (sess st1) = Some (val_batches data) /\
  train_inits (sess st1) = train_inits (sess st).
Proof. split; reflexivity. Qed.

(** The training half of an epoch: it always completes, and takes one
    step per training batch. *)
Lemma train_pass_spec (op : fetch) (st : State B) :
  is_train_op op ->
  exists st',
    train_pass B data cfg g op st = Ok st' /\
    quiet st st' /\
    global_step st' = global_step st
                      + Z.of_nat (length (train_batches data (train_inits (sess st)))) /\
    train_inits (sess st') = S (train_inits (sess st)).
Proof.
  intros Hop. unfold train_pass.
  destruct (run_or_raise_no_batch [train_init_op] None st eq_refl) as (vs0 & ->).
  cbn [rbind fst].
  destruct (run_train_init st) as [Hi0 Hn0].
  pose proof (run_quiet [train_init_op] None st) as Hq0.
  pose proof (run_step [train_init_op] None st) as Hs0.
  set (st0 := fst (run B data cfg g [train_init_op] None st)) in *.
  destruct (train_while_spec (S (batches_left st0)) op Hop st0 _ Hi0)
    as (st1 & -> & Hq1 & Hs1 & Hi1 & Hn1).
  { unfold batches_left. rewrite Hi0. lia. }
  cbn [rbind].
  destruct (run_or_raise_no_batch [mean_loss; acc; epoch_summaries] None st1 eq_refl)
    as (vs2 & ->).
  cbn [rbind].
  pose proof (run_quiet [mean_loss; acc; epoch_summaries] None st1) as Hq2.
  pose proof (run_step [mean_loss; acc; epoch_summaries] None st1) as Hs2.
  pose proof (run_no_init [mean_loss; acc; epoch_summaries] None st1 eq_refl) as Hn2.
  set (st2 := fst (run B data cfg g [mean_loss; acc; epoch_summaries] None st1)) in *.
  match goal with
  | |- context [run_or_raise _ _ _ _ [metric_reset_ops] None ?st3] =>
      assert (Hq3 : quiet st2 st3) by (apply emit_quiet; reflexivity);
      destruct (run_or_raise_no_batch [metric_reset_ops] None st3 eq_refl) as (vs4 & ->);
      pose proof (run_quiet [metric_reset_ops] None st3) as Hq4;
      pose proof (run_step [metric_reset_ops] None st3) as Hs4;
      pose proof (run_no_init [metric_reset_ops] None st3 eq_refl) as Hn4
  end.
  cbn [rbind fst]. eexists. split; [reflexivity |]. split; [| split].
  - eauto using quiet_trans.
  - rewrite Hs4. cbn [emit global_step]. rewrite Hs2, Hs1, Hs0. reflexivity.
  - rewrite Hn4. cbn [emit sess]. rewrite Hn2, Hn1, Hn0. reflexivity.
Qed.

(** The validation half of an epoch: it always completes, and only
    evaluates. *)
Lemma val_pass_spec (st : State B) :
  exists st' r,
    val_pass B data cfg g st = Ok (st', r) /\
    evaluated st st' /\
    train_inits (sess st') = train_inits (sess st).
Proof.
  unfold val_pass.
  destruct (run_or_raise_no_batch [val_init_op] None st eq_refl) as (vs0 & ->).
  cbn [rbind fst].
  destruct (run_val_init st) as [Hi0 Hn0].
  pose proof (run_evaluated [val_init_op] None st eq_refl) as He0.
  set (st0 := fst (run B data cfg g [val_init_op] None st)) in *.
  destruct (val_while_spec (S (batches_left st0)) 0 st0 _ Hi0)
    as (st1 & -> & He1 & Hi1 & Hn1).
  { unfold batches_left. rewrite Hi0. lia. }
  cbn [rbind].
  destruct (run_or_raise_no_batch [mean_loss; acc; epoch_summaries] None st1 eq_refl)
    as (vs2 & ->).
  cbn [rbind].
  pose proof (run_evaluated [mean_loss; acc; epoch_summaries] None st1 eq_refl) as He2.
  pose proof (run_no_init [mean_loss; acc; epoch_summaries] None st1 eq_refl) as Hn2.
  set (st2 := fst (run B data cfg g [mean_loss; acc; epoch_summaries] None st1)) in *.
  match goal with
  | |- context [run_or_raise _ _ _ _ [metric_reset_ops] None ?st3] =>
      assert (He3 : evaluated st2 st3) by (apply emit_evaluated; reflexivity);
      destruct (run_or_raise_no_batch [metric_reset_ops] None st3 eq_refl) as (vs4 & ->);
      pose proof (run_evaluated [metric_reset_ops] None st3 eq_refl) as He4;
      pose proof (run_no_init [metric_reset_ops] None st3 eq_refl) as Hn4
  end.
  cbn [rbind fst]. do 2 eexists. split; [reflexivity |]. split.
  - eapply evaluated_trans; [| apply emit_evaluated; reflexivity].
    eauto using evaluated_trans.
  - cbn [emit sess]. rewrite Hn4. cbn [emit sess]. rewrite Hn2, Hn1, Hn0. reflexivity.
Qed.
End Stretches.

(** ** Validation *)


(** ** Epochs, checkpoints and resuming *)

Lemma epoch_markers_app (es es' : list event) :
  epoch_markers (es ++ es') = (epoch_markers es ++ epoch_markers es')%list.
Proof. apply omap_app. Qed.

Lemma epoch_markers_quiet (es : list event) :
  forallb no_marker es = true -> epoch_markers es = [].
Proof.
  induction es as [| e es IH]; [reflexivity |]. cbn [forallb].
  intros H. apply andb_prop in H as [He Hes].
  destruct e; try discriminate; cbn; auto.
Qed.

Lemma quiet_markers {B : Backend} (st st' : State B) :
  quiet st st' -> epoch_markers (out st') = epoch_markers (out st).
Proof.
  intros [_ _ (es & -> & Hes)].
  rewrite epoch_markers_app, (epoch_markers_quiet es Hes), app_nil_r. reflexivity.
Qed.

Lemma py_range_length (a n : Z) : length (py_range a (a + n)) = Z.to_nat n.
Proof.
  unfold py_range. rewrite length_map, length_seq. f_equal. lia.
Qed.

Lemma map_seq_offset {A : Type} (f : nat -> A) (n m : nat) :
  map f (seq n m) = map (fun i => f (n + i)%nat) (seq 0 m).
Proof.
  revert n f. induction m as [| m IH]; intros n f; [reflexivity |].
  cbn [seq map]. f_equal; [f_equal; lia |].
  rewrite (IH (S n) f), (IH 1%nat (fun i => f (n + i)%nat)).
  apply map_ext. intros i. f_equal. lia.
Qed.

Lemma markers_app (op : fetch) (start : Z) (n m : nat) :
  markers op start (n + m)
  = (markers op start n ++ markers op (start + Z.of_nat n) m)%list.
Proof.
  unfold markers. rewrite seq_app, map_app. f_equal.
  rewrite map_seq_offset. apply map_ext. intros i. f_equal. lia.
Qed.

Section Epochs.
Variable B : Backend.
Variable data : Data B.
Variable cfg : Config.
Variable g : Graph.

(** One iteration of the epoch loop always completes; it advances the
    epoch counter by one, and with checkpointing on it leaves the
    counters it ends with on disk. *)
Lemma run_epoch_spec (op : fetch) (st : State B) :
  is_train_op op ->
  exists st',
    run_epoch B data cfg g op st = Ok st' /\
    global_epoch st' = global_epoch st + 1 /\
    global_step st' = global_step st
                      + Z.of_nat (length (train_batches data (train_inits (sess st)))) /\
    train_inits (sess st') = S (train_inits (sess st)) /\
    epoch_markers (out st') = (epoch_markers (out st) ++ [(op, global_epoch st)])%list /\
    (checkpoint cfg = true -> persisted st') /\
    (checkpoint cfg = false -> files st' = files st).
Proof.
  intros Hop. unfold run_epoch.
  set (st0 := emit st [EpochBegin op (global_epoch st)]).
  destruct (train_pass_spec B data cfg g op st0 Hop) as (st1 & -> & Hq1 & Hs1 & Hn1).
  cbn [rbind].
  destruct (val_pass_spec B data cfg g st1) as (st2 & [ml av] & -> & He2 & Hn2).
  cbn [rbind].
  pose proof (quiet_markers _ _ Hq1) as Hm1.
  pose proof (quiet_markers _ _ (evaluated_quiet B _ _ He2)) as Hm2.
  destruct Hq1 as [Hge1 Hf1 _]. destruct He2 as [Hs2 Hge2 Hf2 _ _].
  assert (Hm0 : epoch_markers (out st0)
                = (epoch_markers (out st) ++ [(op, global_epoch st)])%list).
  { unfold st0. cbn [emit out]. rewrite epoch_markers_app. reflexivity. }
  eexists. split; [reflexivity |].
  destruct (checkpoint cfg); cbn -[epoch_markers];
    rewrite ?epoch_markers_app, ?app_nil_r, ?Hm2, ?Hm1, ?Hm0, ?Hs2, ?Hs1, ?Hge2, ?Hge1,
      ?Hn2, ?Hn1, ?Hf2, ?Hf1;
    repeat split; try reflexivity; try discriminate.
Qed.
End Epochs.

Section Loops.
Variable B : Backend.
Variable data : Data B.
Variable cfg : Config.
Variable g : Graph.

(** The inner loop: as many epochs as the range has elements. *)
Lemma epoch_loop_spec (op : fetch) :
  is_train_op op ->
  forall (l : list Z) (st : State B),
    exists st',
      for_each B l (fun _ st => run_epoch B data cfg g op st) st = Ok st' /\
      global_epoch st' = global_epoch st + Z.of_nat (length l) /\
      global_step st <= global_step st' /\
      epoch_markers (out st')
        = (epoch_markers (out st) ++ markers op (global_epoch st) (length l))%list /\
      (l = [] -> st' = st) /\
      (checkpoint cfg = true -> l <> [] -> persisted st').
Proof.
  intros Hop. induction l as [| x l IH]; intros st.
  - exists st. cbn -[epoch_markers]. rewrite app_nil_r.
    repeat split; auto; try lia; congruence.
  - cbn [for_each].
    destruct (run_epoch_spec B data cfg g op st Hop)
      as (st1 & -> & He1 & Hs1 & _ & Hm1 & Hp1 & _).
    cbn [rbind].
    destruct (IH st1) as (st' & -> & He & Hs & Hm & Hnil & Hp).
    exists st'. split; [reflexivity |]. split; [cbn [length]; lia |].
    split; [lia |]. split; [| split; [discriminate |]].
    + rewrite Hm, Hm1, He1, <- app_assoc. f_equal.
      cbn [length]. change (S (length l)) with (1 + length l)%nat.
      rewrite markers_app.
      change (markers op (global_epoch st) 1) with [(op, global_epoch st + 0)].
      rewrite Z.add_0_r. reflexivity.
    + intros Hc _. destruct l as [| y l]; [rewrite (Hnil eq_refl); auto |].
      apply Hp; [exact Hc | discriminate].
Qed.

(** Both phases: the classifier epochs, then the fine-tuning epochs,
    numbered on from the epoch counter the loop starts with. *)
Lemma training_loop_spec (st : State B) :
  let nclf := Z.to_nat (clf_epochs cfg) in
  let nft := Z.to_nat (finetune_epochs cfg) in
  exists st',
    training_loop B data cfg g st = Ok st' /\
    global_epoch st' = global_epoch st + Z.of_nat nclf + Z.of_nat nft /\
    global_step st <= global_step st' /\
    epoch_markers (out st')
      = (epoch_markers (out st)
         ++ markers clf_train_op (global_epoch st) nclf
         ++ markers finetune_train_op (global_epoch st + Z.of_nat nclf) nft)%list /\
    (nclf = O -> nft = O -> st' = st).
Proof.
  cbv zeta. unfold training_loop. cbn [for_each].
  destruct (epoch_loop_spec clf_train_op (or_introl eq_refl)
              (py_range (global_epoch st) (global_epoch st + clf_epochs cfg)) st)
    as (st1 & -> & He1 & Hs1 & Hm1 & Hn1 & _).
  cbn [rbind].
  destruct (epoch_loop_spec finetune_train_op (or_intror eq_refl)
              (py_range (global_epoch st1) (global_epoch st1 + finetune_epochs cfg)) st1)
    as (st2 & -> & He2 & Hs2 & Hm2 & Hn2 & _).
  cbn [rbind]. rewrite py_range_length in *.
  exists st2. split; [reflexivity |]. split; [lia |]. split; [lia |]. split.
  - rewrite Hm2, Hm1, He1, <- app_assoc. reflexivity.
  - intros Hc Hf.
    rewrite Hn2, Hn1; auto; apply length_zero_iff_nil; rewrite py_range_length; auto.
Qed.
End Loops.



Section Resume.
Variable B : Backend.
Variable data : Data B.
Variable g : Graph.

(** The loop that keeps the epoch boundaries is the loop of the script,
    and the [k]-th boundary is the state after [k + 1] epochs, with its
    counters on disk when checkpointing is on. *)
Lemma epoch_loop_h_spec (cfg : Config) (op : fetch) :
  is_train_op op ->
  forall (l : list Z) (st : State B),
    let r := for_each_h B l
               (fun _ st => match run_epoch B data cfg g op st with
                            | Ok st1 => ([st1], Ok st1)
                            | Raise e => ([], Raise e)
                            end) st in
    snd r = for_each B l (fun _ st => run_epoch B data cfg g op st) st /\
    length (fst r) = length l /\
    forall k stk,
      nth_error (fst r) k = Some stk ->
      global_epoch stk = global_epoch st + Z.of_nat (S k) /\
      (checkpoint cfg = true -> persisted stk).
Proof.
  intros Hop. induction l as [| x l IH]; intros st; cbv zeta.
  - cbn. split; [reflexivity |]. split; [reflexivity |].
    intros [| k] stk; discriminate.
  - cbn [for_each_h for_each].
    destruct (run_epoch_spec B data cfg g op st Hop)
      as (st1 & -> & He1 & _ & _ & _ & Hp1 & _).
    cbn [rbind]. specialize (IH st1). cbv zeta in IH.
    destruct (for_each_h B l _ st1) as [h2 r2]. cbn [fst snd] in *.
    destruct IH as (Hr & Hl & Hk). split; [exact Hr |]. split; [cbn; lia |].
    intros [| k] stk; cbn [app nth_error].
    + intros [= <-]. split; [lia | exact Hp1].
    + intros Hn. destruct (Hk k stk Hn) as [He Hp]. split; [lia | exact Hp].
Qed.

Lemma training_loop_h_spec (cfg : Config) (st : State B) :
  snd (training_loop_h B data cfg g st) = training_loop B data cfg g st /\
  length (fst (training_loop_h B data cfg g st))
    = (Z.to_nat (clf_epochs cfg) + Z.to_nat (finetune_epochs cfg))%nat /\
  forall k stk,
    nth_error (fst (training_loop_h B data cfg g st)) k = Some stk ->
    global_epoch stk = global_epoch st + Z.of_nat (S k) /\
    (checkpoint cfg = true -> persisted stk).
Proof.
  unfold training_loop_h, training_loop. cbn [for_each_h for_each].
  pose proof (epoch_loop_h_spec cfg clf_train_op (or_introl eq_refl)
                (py_range (global_epoch st) (global_epoch st + clf_epochs cfg)) st) as H1.
  cbv zeta in H1.
  destruct (epoch_loop_spec B data cfg g clf_train_op (or_introl eq_refl)
              (py_range (global_epoch st) (global_epoch st + clf_epochs cfg)) st)
    as (st1 & Hf1 & He1 & _).
  destruct (for_each_h B _ _ st) as [h1 r1]. cbn [fst snd] in H1.
  destruct H1 as (Hr1 & Hl1 & Hk1). rewrite Hf1 in *. subst r1. cbn [rbind].
  pose proof (epoch_loop_h_spec cfg finetune_train_op (or_intror eq_refl)
                (py_range (global_epoch st1) (global_epoch st1 + finetune_epochs cfg)) st1)
    as H2.
  cbv zeta in H2.
  destruct (epoch_loop_spec B data cfg g finetune_train_op (or_intror eq_refl)
              (py_range (global_epoch st1) (global_epoch st1 + finetune_epochs cfg)) st1)
    as (st2 & Hf2 & He2 & _).
  destruct (for_each_h B _ _ st1) as [h2 r2]. cbn [fst snd] in H2.
  destruct H2 as (Hr2 & Hl2 & Hk2). rewrite Hf2 in *. subst r2. cbn [rbind fst snd].
  split; [reflexivity |]. rewrite app_nil_r. rewrite py_range_length in Hl1, Hl2, He1, He2.
  split; [rewrite length_app; lia |]. intros k stk Hn.
  destruct (Nat.lt_ge_cases k (length h1)) as [Hlt | Hge].
  - rewrite nth_error_app1 in Hn by exact Hlt. exact (Hk1 k stk Hn).
  - rewrite nth_error_app2 in Hn by exact Hge.
    destruct (Hk2 _ stk Hn) as [He Hp]. split; [lia | exact Hp].
Qed.


Lemma train_session_fresh (cfg : Config) (fs : Files B) :
  resume cfg = false ->
  train_session B data cfg g fs = snd (training_loop_h B data cfg g (fresh_state B fs)).
Proof.
  intros Hr. rewrite (proj1 (training_loop_h_spec cfg _)).
  unfold train_session. cbn [initialize_variables]. rewrite Hr. reflexivity.
Qed.
End Resume.







(** ** Trainable layers and the two optimizers *)

Lemma alter_middle {A : Type} (f : A -> A) (pre post : list A) (x : A) :
  alter f (length pre) (pre ++ x :: post)%list = (pre ++ f x :: post)%list.
Proof.
  induction pre as [| y pre IH]; [reflexivity |].
  cbn. f_equal. exact IH.
Qed.

Lemma set_all_trainable_range (b : bool) (mid pre post : list Layer) :
  set_all_trainable b (seq (length pre) (length mid)) (pre ++ mid ++ post)%list
  = (pre ++ map (set_trainable b) mid ++ post)%list.
Proof.
  revert pre. induction mid as [| x mid IH]; intros pre; [reflexivity |].
  cbn [length seq]. unfold set_all_trainable in *. cbn [fold_left].
  cbn [app]. rewrite alter_middle.
  specialize (IH (pre ++ [set_trainable b x])%list).
  rewrite length_app in IH. cbn [length] in IH.
  replace (length pre + 1)%nat with (S (length pre)) in IH by lia.
  rewrite <- !app_assoc in IH. cbn [app] in IH. rewrite IH. reflexivity.
Qed.

Lemma deref_range (l pre : list Layer) :
  omap (fun id => (pre ++ l)%list !! id) (seq (length pre) (length l)) = l.
Proof.
  revert pre. induction l as [| x l IH]; intros pre; [reflexivity |].
  cbn [length seq omap list_omap]. rewrite list_lookup_middle by reflexivity.
  f_equal. specialize (IH (pre ++ [x])%list).
  rewrite length_app in IH. cbn [length] in IH.
  replace (length pre + 1)%nat with (S (length pre)) in IH by lia.
  rewrite <- app_assoc in IH. exact IH.
Qed.

Lemma deref_all (h : Heap) : deref h (seq 0 (length h)) = h.
Proof. exact (deref_range h []). Qed.

Lemma frozen_trainable_weights (l : list Layer) :
  concat (map layer_trainable_weights (map (set_trainable false) l)) = [].
Proof. induction l as [| x l IH]; [reflexivity | exact IH]. Qed.

Lemma unfrozen_trainable_weights (l : list Layer) :
  concat (map layer_trainable_weights (map (set_trainable true) l))
  = concat (map own_trainable l).
Proof. induction l as [| x l IH]; [reflexivity |]. cbn. rewrite IH. reflexivity. Qed.

Lemma set_trainable_updates (b : bool) (l : list Layer) :
  concat (map own_updates (map (set_trainable b) l)) = concat (map own_updates l).
Proof. induction l as [| x l IH]; [reflexivity |]. cbn. rewrite IH. reflexivity. Qed.

Lemma head_layers_weights (cfg : Config) :
  concat (map layer_trainable_weights (head_layers cfg)) = [dense_kernel; dense_bias] /\
  concat (map own_updates (head_layers cfg)) = [].
Proof. unfold head_layers. destruct (String.eqb (model_name cfg) "logreg"); split; reflexivity. Qed.

Lemma model_block_known (apps : Applications) (cfg : Config) (hbm : Heap * Model * Model) :
  model_block apps cfg = Ok hbm ->
  hbm = ((base_layers apps cfg ++ head_layers cfg)%list,
         seq 0 (length (base_layers apps cfg)),
         seq 0 (length (base_layers apps cfg ++ head_layers cfg))).
Proof.
  unfold model_block, base_layers, head_layers.
  destruct (String.eqb_spec (model_name cfg) "logreg") as [-> | _].
  - intros [= <-]. reflexivity.
  - destruct (String.eqb (model_name cfg) "vgg"); [intros [= <-]; reflexivity |].
    destruct (String.eqb (model_name cfg) "resnet"); [intros [= <-]; reflexivity |].
    discriminate.
Qed.

Lemma trainable_weights_all (h : Heap) (n : nat) :
  n = length h ->
  trainable_weights h (seq 0 n) = concat (map layer_trainable_weights h) /\
  updates h (seq 0 n) = concat (map own_updates h).
Proof.
  intros ->. unfold trainable_weights, updates. rewrite deref_all. split; reflexivity.
Qed.

Lemma py_last_seq (k : Z) (n : nat) :
  py_last k (seq 0 n) = seq (n - Z.to_nat k) (n - (n - Z.to_nat k)).
Proof. unfold py_last. rewrite length_seq, skipn_seq. reflexivity. Qed.

(** What the optimizer block leaves behind: every backbone layer frozen
    but the unfrozen tail, the classifier's variable list taken while all
    of them were frozen, the fine-tuning list taken after the tail was
    unfrozen, and the update ops of every layer in both train ops. *)
Lemma optim_block_spec (apps : Applications) (cfg : Config) (g : Graph) :
  snd (build_graph apps cfg) = Ok g ->
  layers g = (map (set_trainable false) (frozen cfg (base_layers apps cfg))
              ++ map (set_trainable true) (unfrozen cfg (base_layers apps cfg))
              ++ head_layers cfg)%list /\
  clf_var_list g = [dense_kernel; dense_bias] /\
  finetune_var_list g
    = (concat (map own_trainable (unfrozen cfg (base_layers apps cfg)))
       ++ [dense_kernel; dense_bias])%list /\
  clf_model_update_ops g = concat (map own_updates (base_layers apps cfg)) /\
  finetune_model_update_ops g = concat (map own_updates (base_layers apps cfg)).
Proof.
  unfold build_graph. destruct (model_block apps cfg) as [hbm | e] eqn:E; [| discriminate].
  cbn [snd]. intros [= <-]. rewrite (model_block_known apps cfg hbm E).
  set (bl := base_layers apps cfg). set (hd := head_layers cfg).
  destruct (head_layers_weights cfg) as [Hhw Hhu]. fold hd in Hhw, Hhu.
  unfold optim_block.
  pose proof (set_all_trainable_range false bl [] hd) as H1. cbn [length app] in H1.
  rewrite H1.
  assert (Hlen1 : length (bl ++ hd) = length (map (set_trainable false) bl ++ hd)).
  { rewrite !length_app, length_map. reflexivity. }
  destruct (trainable_weights_all _ _ Hlen1) as [Ht1 Hu1].
  rewrite Ht1, Hu1, !map_app, !concat_app, frozen_trainable_weights,
    set_trainable_updates, Hhw, Hhu, app_nil_r.
  unfold frozen, unfrozen. destruct (0 <? finetune_layers cfg).
  - rewrite py_last_seq. set (j := (length bl - Z.to_nat (finetune_layers cfg))%nat).
    assert (Hj : (j <= length bl)%nat) by (unfold j; lia).
    pose proof (set_all_trainable_range true
                  (map (set_trainable false) (skipn j bl))
                  (map (set_trainable false) (firstn j bl)) hd) as H2.
    rewrite !length_map, length_firstn, length_skipn, Nat.min_l in H2 by exact Hj.
    assert (Hsplit : (map (set_trainable false) bl ++ hd
                      = map (set_trainable false) (firstn j bl)
                        ++ map (set_trainable false) (skipn j bl) ++ hd)%list).
    { rewrite app_assoc, <- map_app, firstn_skipn. reflexivity. }
    rewrite Hsplit, H2.
    rewrite map_map. cbn [set_trainable layer_name own_trainable own_non_trainable
                           own_updates].
    change (map (fun x : Layer => _) (skipn j bl))
      with (map (set_trainable true) (skipn j bl)).
    assert (Hlen2 : length (bl ++ hd)
                    = length (map (set_trainable false) (firstn j bl)
                              ++ map (set_trainable true) (skipn j bl) ++ hd)).
    { rewrite !length_app, !length_map, length_firstn, length_skipn. lia. }
    destruct (trainable_weights_all _ _ Hlen2) as [Ht2 Hu2].
    cbn [layers clf_var_list finetune_var_list clf_model_update_ops
           finetune_model_update_ops].
    rewrite Ht2, Hu2, !map_app, !concat_app, frozen_trainable_weights,
      unfrozen_trainable_weights, !set_trainable_updates, Hhw, Hhu, app_nil_r.
    unfold py_last. fold j.
    rewrite <- concat_app, <- map_app, firstn_skipn. repeat split.
  - cbn [layers clf_var_list finetune_var_list clf_model_update_ops
           finetune_model_update_ops].
    rewrite Ht1, Hu1, !map_app, !concat_app, frozen_trainable_weights,
      set_trainable_updates, Hhw, Hhu, app_nil_r.
    repeat split.
Qed.

Lemma var_eqb_eq (u v : var) : var_eqb u v = true <-> u = v.
Proof.
  destruct u as [i | |], v as [j | |]; cbn; try (split; congruence).
  rewrite Nat.eqb_eq. split; congruence.
Qed.

Lemma var_eqb_refl (v : var) : var_eqb v v = true.
Proof. apply var_eqb_eq. reflexivity. Qed.

Lemma var_eqb_neq (u v : var) : u <> v -> var_eqb u v = false.
Proof.
  intros H. destruct (var_eqb u v) eqn:E; [| reflexivity].
  apply var_eqb_eq in E. contradiction.
Qed.

Section Steps.
Variable B : Backend.
Variable cfg : Config.
Variable g : Graph.
Variable data : Data B.

(** An optimizer writes the variables it was given and no other. *)
Lemma apply_gradients_frame (rule : var -> Tensor B -> Tensor B -> Tensor B)
    (gv : list (var * Tensor B)) (w : Store B) (v : var) :
  ~ In v (map fst gv) -> apply_gradients B rule gv w v = w v.
Proof.
  revert w. induction gv as [| [u gr] gv IH]; intros w Hv; [reflexivity |].
  cbn [apply_gradients fold_left]. cbn [map fst In] in Hv.
  fold (apply_gradients B rule gv (assign w u (rule u (w u) gr))).
  rewrite IH by tauto. unfold assign. rewrite var_eqb_neq; [reflexivity |].
  intros ->. tauto.
Qed.

Lemma apply_gradients_hit (rule : var -> Tensor B -> Tensor B -> Tensor B)
    (gv : list (var * Tensor B)) (w : Store B) (v : var) (gr : Tensor B) :
  List.NoDup (map fst gv) -> In (v, gr) gv ->
  apply_gradients B rule gv w v = rule v (w v) gr.
Proof.
  revert w. induction gv as [| [u gu] gv IH]; intros w Hnd Hin; [destruct Hin |].
  cbn [apply_gradients fold_left]. cbn [map fst] in Hnd.
  fold (apply_gradients B rule gv (assign w u (rule u (w u) gu))).
  apply List.NoDup_cons_iff in Hnd as [Hu Hnd]. destruct Hin as [[= -> ->] | Hin].
  - rewrite apply_gradients_frame by exact Hu.
    unfold assign. rewrite var_eqb_refl. reflexivity.
  - rewrite (IH _ Hnd Hin). unfold assign. rewrite var_eqb_neq; [reflexivity |].
    intros ->. apply Hu. apply (in_map fst) in Hin. exact Hin.
Qed.

Lemma run_update_ops_frame (w0 : Store B) (phase : Z) (b : Batch B) (ops : list var)
    (w : Store B) (v : var) :
  ~ In v ops -> run_update_ops B w0 phase b ops w v = w v.
Proof.
  revert w. induction ops as [| u ops IH]; intros w Hv; [reflexivity |].
  cbn [run_update_ops fold_left]. cbn [In] in Hv.
  fold (run_update_ops B w0 phase b ops (assign w u (update_value B w0 phase b u))).
  rewrite IH by tauto. unfold assign. rewrite var_eqb_neq; [reflexivity |].
  intros ->. tauto.
Qed.

Lemma compute_gradients_vars (w : Store B) (phase : Z) (b : Batch B) (vl : list var) :
  map fst (compute_gradients B w phase b vl) = vl.
Proof. unfold compute_gradients. rewrite map_map. apply map_id. Qed.

(** A train op leaves alone what is neither in its variable list nor
    assigned by one of its update ops. *)
Lemma run_train_op_frame (op : fetch) (phase : Z) (b : Batch B) (s : Session B)
    (v : var) :
  ~ In v (match op with
          | clf_train_op => clf_var_list g ++ clf_model_update_ops g
          | finetune_train_op => finetune_var_list g ++ finetune_model_update_ops g
          | _ => []
          end)%list ->
  weights (run_train_op B cfg g op phase b s) v = weights s v.
Proof.
  intros Hv. destruct op; try reflexivity; cbn [run_train_op with_weights weights];
    rewrite in_app_iff in Hv;
    rewrite run_update_ops_frame, apply_gradients_frame by
      (rewrite ?compute_gradients_vars; tauto);
    reflexivity.
Qed.

(** Any [sess.run] that does not fetch the fine-tuning train op leaves
    alone what the classifier train op leaves alone. *)
Lemma sess_run_clf_frame (fetches : list fetch) (fd : option Z) (s s' : Session B)
    (vs : list value) (v : var) :
  fetched finetune_train_op fetches = false ->
  sess_run B cfg g data fetches fd s = Ok (s', vs) ->
  ~ In v (clf_var_list g) -> ~ In v (clf_model_update_ops g) ->
  weights s' v = weights s v.
Proof.
  intros Hf Hr Hv Hu. revert Hr. unfold sess_run. rewrite Hf.
  destruct (existsb needs_batch fetches);
    [destruct (iterator s) as [[| b rest] |] |]; cbn [rbind]; try discriminate;
    repeat match goal with
           | |- context [fetched ?f fetches] => destruct (fetched f fetches)
           end;
    cbn [when]; intros [= <- _]; cbn [with_metrics with_iterator weights];
    try reflexivity;
    cbn [with_weights weights];
    rewrite run_update_ops_frame, apply_gradients_frame by
      (rewrite ?compute_gradients_vars; assumption);
    reflexivity.
Qed.

(** The same for the fine-tuning train op. *)
Lemma sess_run_finetune_frame (fetches : list fetch) (fd : option Z) (s s' : Session B)
    (vs : list value) (v : var) :
  fetched clf_train_op fetches = false ->
  sess_run B cfg g data fetches fd s = Ok (s', vs) ->
  ~ In v (finetune_var_list g) -> ~ In v (finetune_model_update_ops g) ->
  weights s' v = weights s v.
Proof.
  intros Hf Hr Hv Hu. revert Hr. unfold sess_run. rewrite Hf.
  destruct (existsb needs_batch fetches);
    [destruct (iterator s) as [[| b rest] |] |]; cbn [rbind]; try discriminate;
    repeat match goal with
           | |- context [fetched ?f fetches] => destruct (fetched f fetches)
           end;
    cbn [when]; intros [= <- _]; cbn [with_metrics with_iterator weights];
    try reflexivity;
    cbn [with_weights weights];
    rewrite run_update_ops_frame, apply_gradients_frame by
      (rewrite ?compute_gradients_vars; assumption);
    reflexivity.
Qed.

(** A fine-tuning step assigns every variable of its list the momentum
    update of its gradient. *)
Lemma sess_run_finetune_hit (fetches : list fetch) (phase : Z) (s s' : Session B)
    (vs : list value) (b : Batch B) (rest : list (Batch B)) (v : var) :
  fetched finetune_train_op fetches = true ->
  fetched clf_train_op fetches = false ->
  iterator s = Some (b :: rest) ->
  sess_run B cfg g data fetches (Some phase) s = Ok (s', vs) ->
  List.NoDup (finetune_var_list g) ->
  In v (finetune_var_list g) -> ~ In v (finetune_model_update_ops g) ->
  weights s' v
  = momentum_rule B (finetune_lr cfg) (finetune_momentum cfg) (finetune_slots s) v
      (weights s v) (gradient B (weights s) phase b v).
Proof.
  intros Hf Hc Hi Hr Hnd Hv Hu. revert Hr. unfold sess_run. rewrite Hf, Hc, Hi.
  assert (Hn : existsb needs_batch fetches = true).
  { clear -Hf. induction fetches as [| f fs IH]; [discriminate |].
    cbn in *. destruct f; cbn in *; auto using orb_true_r. }
  rewrite Hn. cbn [rbind when].
  repeat match goal with
         | |- context [fetched ?f fetches] => destruct (fetched f fetches)
         end;
    cbn [when]; intros [= <- _]; cbn [with_metrics with_iterator weights run_train_op
                                        with_weights finetune_slots];
    rewrite run_update_ops_frame by exact Hu;
    apply apply_gradients_hit;
    rewrite ?compute_gradients_vars; auto;
    unfold compute_gradients; apply in_map_iff; eauto.
Qed.
End Steps.

(** C10 (as stated, refuted): with a backbone that has a batch
    normalization layer, one classifier-phase training step changes that
    frozen layer's moving mean: the train op runs the model's update ops
    next to the gradient update. *)
Lemma classifier_step_updates_moving_statistics :
  let cfg := toy_config "resnet" 1 1 2 (1 # 10000) false in
  let g := toy_graph "resnet" 2 in
  snd (build_graph toy_apps cfg) = Ok g /\
  match sess_run toy_backend cfg g toy_data [train_init_op] None toy_session with
  | Ok (s0, _) =>
      match sess_run toy_backend cfg g toy_data [clf_train_op; metric_update_ops]
              (Some 1) s0 with
      | Ok (s1, _) =>
          In (base_var 4)
             (concat (map layer_weights (deref (layers g) (model_base g)))) /\
          weights s0 (base_var 4) = 1%Q /\
          weights s1 (base_var 4) = (101 # 100)%Q
      | Raise _ => False
      end
  | Raise _ => False
  end.
Proof. vm_compute. repeat split; auto 10. Qed.

(** C10 (amended): for every configuration, whatever [finetune_layers]
    is, the classifier optimizer's variable list is the dense head's
    kernel and bias only: it is taken while every backbone layer is
    frozen, before the unfreezing.  A [sess.run] of the classifier phase
    therefore leaves unchanged every variable other than the head's two
    and the targets of the model's update ops (the backbone's moving
    statistics), which the classifier train op runs as well. *)
Theorem classifier_step_frame (apps : Applications) (B : Backend) (cfg : Config)
    (g : Graph) (data : Data B) :
  snd (build_graph apps cfg) = Ok g ->
  clf_var_list g = [dense_kernel; dense_bias] /\
  clf_model_update_ops g = concat (map own_updates (base_layers apps cfg)) /\
  forall (fetches : list fetch) (fd : option Z) (s s' : Session B) (vs : list value)
         (v : var),
    fetched finetune_train_op fetches = false ->
    sess_run B cfg g data fetches fd s = Ok (s', vs) ->
    v <> dense_kernel -> v <> dense_bias ->
    ~ In v (concat (map own_updates (base_layers apps cfg))) ->
    weights s' v = weights s v.
Proof.
  intros Hg. destruct (optim_block_spec apps cfg g Hg) as (_ & Hc & _ & Hu & _).
  split; [exact Hc |]. split; [exact Hu |].
  intros fetches fd s s' vs v Hf Hr Hk Hb Hv.
  apply (sess_run_clf_frame B cfg g data fetches fd s s' vs v Hf Hr).
  - rewrite Hc. cbn. intros [H | [H | []]]; congruence.
  - rewrite Hu. exact Hv.
Qed.

Lemma classifier_step_frame_witness :
  clf_var_list (toy_graph "resnet" 2) = [dense_kernel; dense_bias] /\
  clf_model_update_ops (toy_graph "resnet" 2) = [base_var 4; base_var 5].
Proof.
  destruct (classifier_step_frame toy_apps toy_backend
              (toy_config "resnet" 1 1 2 (1 # 10000) false) (toy_graph "resnet" 2)
              toy_data eq_refl) as (Hc & Hu & _).
  split; [exact Hc | exact Hu].
Defined.

(** C6 (as stated, refuted), on both counts.  With a batch normalization
    layer among the frozen backbone layers, one fine-tuning step changes
    that layer's moving mean; and with a fine-tuning learning rate of 0 a
    fine-tuning step leaves the unfrozen layer's and the head's weights
    exactly as they were. *)
Lemma finetune_step_moves_frozen_statistics_and_may_keep_tail :
  (let cfg := toy_config "resnet" 1 1 1 (1 # 10000) false in
   let g := toy_graph "resnet" 1 in
   snd (build_graph toy_apps cfg) = Ok g /\
   match sess_run toy_backend cfg g toy_data [train_init_op] None toy_session with
   | Ok (s0, _) =>
       match sess_run toy_backend cfg g toy_data [finetune_train_op; metric_update_ops]
               (Some 1) s0 with
       | Ok (s1, _) =>
           (exists l, nth_error (layers g) 2 = Some l /\
                      layer_name l = "bn_conv1" /\ trainable l = false /\
                      In (base_var 4) (layer_weights l)) /\
           weights s0 (base_var 4) = 1%Q /\
           weights s1 (base_var 4) = (101 # 100)%Q
       | Raise _ => False
       end
   | Raise _ => False
   end) /\
  (let cfg := toy_config "vgg" 1 1 2 0 false in
   let g := toy_graph "vgg" 2 in
   snd (build_graph toy_apps cfg) = Ok g /\
   finetune_var_list g = [base_var 2; base_var 3; dense_kernel; dense_bias] /\
   match sess_run toy_backend cfg g toy_data [train_init_op] None toy_session with
   | Ok (s0, _) =>
       match sess_run toy_backend cfg g toy_data [finetune_train_op; metric_update_ops]
               (Some 1) s0 with
       | Ok (s1, _) =>
           Forall (fun v => weights s1 v = weights s0 v) (finetune_var_list g)
       | Raise _ => False
       end
   | Raise _ => False
   end).
Proof.
  split.
  - vm_compute. split; [reflexivity |]. split; [| split; reflexivity].
    eexists. split; [reflexivity |]. repeat split; auto 10.
  - vm_compute. split; [reflexivity |]. split; [reflexivity |].
    repeat constructor.
Qed.

(** C6 (amended): after the optimizer block every backbone layer before
    the last [finetune_layers] ones is non-trainable, and the fine-tuning
    optimizer's variable list is the trainable weights of the last
    [finetune_layers] backbone layers (of none when the count is not
    positive) followed by the dense head's kernel and bias.  A fine-tuning
    step leaves unchanged every variable outside that list that is not the
    target of one of the model's update ops (the moving statistics, of
    frozen layers too), and assigns each variable of the list the momentum
    update of its gradient. *)
Theorem finetune_step_frame (apps : Applications) (B : Backend) (cfg : Config)
    (g : Graph) (data : Data B) :
  snd (build_graph apps cfg) = Ok g ->
  let base := base_layers apps cfg in
  layers g = (map (set_trainable false) (frozen cfg base)
              ++ map (set_trainable true) (unfrozen cfg base)
              ++ head_layers cfg)%list /\
  Forall (fun l => trainable l = false) (firstn (length (frozen cfg base)) (layers g)) /\
  finetune_var_list g
    = (concat (map own_trainable (unfrozen cfg base)) ++ [dense_kernel; dense_bias])%list /\
  finetune_model_update_ops g = concat (map own_updates base) /\
  (forall (fetches : list fetch) (fd : option Z) (s s' : Session B) (vs : list value)
          (v : var),
      fetched clf_train_op fetches = false ->
      sess_run B cfg g data fetches fd s = Ok (s', vs) ->
      ~ In v (finetune_var_list g) ->
      ~ In v (concat (map own_updates base)) ->
      weights s' v = weights s v) /\
  (forall (fetches : list fetch) (phase : Z) (s s' : Session B) (vs : list value)
          (b : Batch B) (rest : list (Batch B)) (v : var),
      fetched finetune_train_op fetches = true ->
      fetched clf_train_op fetches = false ->
      iterator s = Some (b :: rest) ->
      sess_run B cfg g data fetches (Some phase) s = Ok (s', vs) ->
      List.NoDup (finetune_var_list g) ->
      In v (finetune_var_list g) ->
      ~ In v (concat (map own_updates base)) ->
      weights s' v
      = momentum_rule B (finetune_lr cfg) (finetune_momentum cfg) (finetune_slots s) v
          (weights s v) (gradient B (weights s) phase b v)).
Proof.
  intros Hg base. destruct (optim_block_spec apps cfg g Hg) as (Hl & _ & Hv & _ & Hu).
  fold base in Hl, Hv, Hu. split; [exact Hl |]. split; [| split; [exact Hv |]].
  - rewrite Hl. rewrite <- (length_map (set_trainable false) (frozen cfg base)).
    rewrite firstn_app, Nat.sub_diag, firstn_all. cbn [firstn]. rewrite app_nil_r.
    apply List.Forall_map, List.Forall_forall. reflexivity.
  - split; [exact Hu |]. split.
    + intros fetches fd s s' vs v Hf Hr Hnv Hnu.
      apply (sess_run_finetune_frame B cfg g data fetches fd s s' vs v Hf Hr Hnv).
      rewrite Hu. exact Hnu.
    + intros fetches phase s s' vs b rest v Hf Hc Hi Hr Hnd Hin Hnu.
      apply (sess_run_finetune_hit B cfg g data fetches phase s s' vs b rest v
               Hf Hc Hi Hr Hnd Hin).
      rewrite Hu. exact Hnu.
Qed.

Lemma finetune_step_frame_witness :
  finetune_var_list (toy_graph "resnet" 1)
    = [base_var 6; base_var 7; dense_kernel; dense_bias] /\
  finetune_model_update_ops (toy_graph "resnet" 1) = [base_var 4; base_var 5].
Proof.
  destruct (finetune_step_frame toy_apps toy_backend
              (toy_config "resnet" 1 1 1 (1 # 10000) false) (toy_graph "resnet" 1)
              toy_data eq_refl) as (_ & _ & Hv & Hu & _).
  split; [exact Hv | exact Hu].
Defined.

(** * Further properties of the code *)

(** ** Labels *)

Lemma get_label_layout_witness :
  get_label ("data/mitoses/patches/train" ++ "/mitosis/" ++ "1_03_05_713_348.jpg") = Ok 1%Q /\
  get_label ("data/mitoses/patches/train" ++ "/normal/" ++ "1_03_05_713_348.jpg") = Ok 0%Q.
Proof.
  apply (get_label_layout "data/mitoses/patches/train" "1_03_05_713_348.jpg").
  reflexivity.
Defined.



Lemma string_split_app (a b : string) :
  string_split (a ++ String "/" b) "/"
  = (string_split a "/" ++ string_split b "/")%list.
Proof.
  unfold string_split. rewrite raw_split_app by reflexivity. apply filter_app.
Qed.

(** Empty segments do not count: a doubled separator, or a leading one,
    leaves the label as it is. *)
Theorem get_label_ignores_empty_segments (a b : string) :
  get_label (a ++ "//" ++ b) = get_label (a ++ "/" ++ b) /\
  get_label ("/" ++ b) = get_label b.
Proof.
  unfold get_label. split.
  - change (a ++ "//" ++ b) with (a ++ String "/" (String "/" b)).
    change (a ++ "/" ++ b) with (a ++ String "/" b).
    rewrite !string_split_app.
    change (String "/" b) with ("" ++ String "/" b). rewrite string_split_app.
    reflexivity.
  - change ("/" ++ b) with ("" ++ String "/" b). rewrite string_split_app.
    reflexivity.
Qed.

(** ** Images *)

Lemma concat_rev_perm {A : Type} (l : list (list A)) :
  Permutation (concat (rev l)) (concat l).
Proof.
  induction l as [| x l IH]; [reflexivity |].
  cbn [rev concat]. rewrite concat_app. cbn [concat]. rewrite app_nil_r.
  rewrite IH. apply Permutation_app_comm.
Qed.

Lemma concat_map_rev_perm {A : Type} (l : list (list A)) :
  Permutation (concat (map (@rev A) l)) (concat l).
Proof.
  induction l as [| x l IH]; [reflexivity |].
  cbn [map concat]. rewrite IH, <- Permutation_rev. reflexivity.
Qed.

(** The two flips undo themselves and only move pixels around: applying
    the same flips twice gives the image back, and the flipped image has
    the same pixels as the original. *)
Theorem augment_involutive (coins : bool * bool) (image : Image) :
  augment coins (augment coins image) = image /\
  Permutation (pixels (augment coins image)) (pixels image) /\
  length (augment coins image) = length image.
Proof.
  destruct coins as [[|] [|]]; unfold augment, flip_up_down, flip_left_right, pixels;
    cbn [fst snd].
  - split; [| split].
    + rewrite <- map_rev, rev_involutive, map_map.
      rewrite <- (map_id image) at 2. apply map_ext. intros row. apply rev_involutive.
    + rewrite concat_map_rev_perm. apply concat_rev_perm.
    + rewrite length_map, length_rev. reflexivity.
  - split; [| split].
    + apply rev_involutive.
    + apply concat_rev_perm.
    + apply length_rev.
  - split; [| split].
    + rewrite map_map. rewrite <- (map_id image) at 2.
      apply map_ext. intros row. apply rev_involutive.
    + apply concat_map_rev_perm.
    + apply length_map.
  - repeat split; reflexivity.
Qed.

Lemma values_in_augment (lo hi : Q) (coins : bool * bool) (image : Image) :
  values_in lo hi image -> values_in lo hi (augment coins image).
Proof.
  unfold values_in, augment, flip_up_down, flip_left_right. intros H.
  assert (H' : Forall (Forall (Forall (fun x : Q => (lo <= x /\ x <= hi)%Q)))
                 (if fst coins then rev image else image)).
  { destruct (fst coins); [apply List.Forall_rev |]; exact H. }
  destruct (snd coins); [| exact H'].
  apply List.Forall_map. eapply List.Forall_impl; [| exact H'].
  intros row Hrow. apply List.Forall_rev, Hrow.
Qed.

Lemma clip_in_range (x : Q) : (0 <= x -> x <= 1 -> Qmax (Qmin x 1) 0 = x)%Q.
Proof.
  intros H0 H1. unfold Qmin, Qmax, GenericMinMax.gmin, GenericMinMax.gmax.
  pose proof (proj1 (Qle_alt x 1) H1) as G1.
  pose proof (proj1 (Qge_alt x 0) H0) as G0.
  destruct (x ?= 1)%Q eqn:E1; [| | exfalso; apply G1; reflexivity];
    destruct (x ?= 0)%Q eqn:E0; try reflexivity; exfalso; apply G0; reflexivity.
Qed.

Lemma tmap_id_on (f : Q -> Q) (lo hi : Q) (image : Image) :
  (forall x, lo <= x -> x <= hi -> f x = x)%Q ->
  values_in lo hi image -> tmap f image = image.
Proof.
  intros Hf H. unfold tmap, values_in in *.
  induction H as [| row image Hrow _ IH]; [reflexivity |].
  cbn [map]. rewrite IH. f_equal.
  induction Hrow as [| px row Hpx _ IHrow]; [reflexivity |].
  cbn [map]. rewrite IHrow. f_equal.
  induction Hpx as [| x px [Hlo Hhi] _ IHpx]; [reflexivity |].
  cbn [map]. rewrite IHpx, (Hf x Hlo Hhi). reflexivity.
Qed.

(** On an image whose values already lie in [0, 1], as a decoded image's
    do, the clip that follows the flips changes nothing. *)
Theorem clip_after_augment_is_identity (coins : bool * bool) (image : Image) :
  values_in 0 1 image ->
  clip_by_value (augment coins image) 0 1 = augment coins image.
Proof.
  intros H. unfold clip_by_value.
  apply (tmap_id_on _ 0 1); [| apply values_in_augment, H].
  intros x H0 H1. apply clip_in_range; assumption.
Qed.

Lemma clip_after_augment_is_identity_witness :
  clip_by_value (augment (true, true) [[[1 # 2; 1 # 4; 1]; [0; 0; 1]]]%Q) 0 1
  = [[[0; 0; 1]; [1 # 2; 1 # 4; 1]]]%Q.
Proof.
  rewrite (clip_after_augment_is_identity (true, true)
             [[[1 # 2; 1 # 4; 1]; [0; 0; 1]]]%Q).
  - reflexivity.
  - repeat constructor; cbn; discriminate.
Defined.

Lemma tmap_values (f : Q -> Q) (lo hi : Q) (image : Image) :
  (forall x, lo <= f x /\ f x <= hi)%Q -> values_in lo hi (tmap f image).
Proof.
  intros Hf. unfold values_in, tmap.
  apply List.Forall_map, List.Forall_forall. intros row _.
  apply List.Forall_map, List.Forall_forall. intros px _.
  apply List.Forall_map, List.Forall_forall. intros x _. apply Hf.
Qed.

Lemma clip_bounds (x : Q) : (0 <= Qmax (Qmin x 1) 0 /\ Qmax (Qmin x 1) 0 <= 1)%Q.
Proof.
  split; [apply Q.le_max_r |].
  apply Q.max_lub; [apply Q.le_min_r | discriminate].
Qed.

(** With augmentation on, the clip bounds what reaches [normalize]: for
    a backbone that is not an ImageNet-style one, every value of a
    preprocessed sample lies in [-1, 1], whatever the decoded image
    held. *)
Theorem preprocess_augmented_range (rd : string -> Z -> result Image)
    (coins : bool * bool) (filename : string) (size : Z) (model : string)
    (image : Image) (label : Q) (path : string) :
  in_tuple model ["vgg"; "resnet"] = false ->
  preprocess rd coins filename size true model = Ok (image, label, path) ->
  values_in (-1) 1 image.
Proof.
  intros Hm. unfold preprocess, get_image, normalize. rewrite Hm.
  destruct (get_label filename) as [l | e]; [| discriminate]. cbn [rbind].
  destruct (rd filename size) as [raw | e]; [| discriminate]. cbn [rbind].
  intros [= <- _ _]. rewrite tmap_tmap.
  apply (values_in_tmap _ 0 1).
  - intros x [H0 H1]. split; lra.
  - apply tmap_values. intros x. apply clip_bounds.
Qed.

Lemma preprocess_augmented_range_witness :
  exists image,
    preprocess (fun _ _ => Ok [[[3; -1; 1 # 2]]]%Q) (true, false)
      "train/mitosis/a.jpg" 64 true "logreg"
    = Ok (image, 1%Q, "train/mitosis/a.jpg") /\
    values_in (-1) 1 image.
Proof.
  eexists. split; [reflexivity |].
  eapply (preprocess_augmented_range (fun _ _ => Ok [[[3; -1; 1 # 2]]]%Q) (true, false)
            "train/mitosis/a.jpg" 64 "logreg"); reflexivity.
Defined.

Lemma mapM_cons_inv {A C : Type} (h : A -> result C) (x : A) (t : list A) (l' : list C) :
  mapM h (x :: t) = Ok l' ->
  exists y ys, h x = Ok y /\ mapM h t = Ok ys /\ l' = y :: ys.
Proof.
  cbn [mapM]. destruct (h x) as [y | e]; [| discriminate]. cbn [rbind].
  destruct (mapM h t) as [ys | e]; [| discriminate]. cbn [rbind].
  intros [= <-]. eauto.
Qed.

Lemma mapM_app_ok {A C : Type} (h : A -> result C) (a b : list A) (a' b' : list C) :
  mapM h a = Ok a' -> mapM h b = Ok b' -> mapM h (a ++ b) = Ok (a' ++ b')%list.
Proof.
  revert a'. induction a as [| x a IH]; intros a' Ha Hb.
  - injection Ha as <-. exact Hb.
  - apply mapM_cons_inv in Ha as (y & ys & Hx & Ht & ->).
    cbn [app mapM]. rewrite Hx. cbn [rbind]. rewrite (IH ys Ht Hb). reflexivity.
Qed.

Lemma mapM_rev {A C : Type} (h : A -> result C) (l : list A) (l' : list C) :
  mapM h l = Ok l' -> mapM h (rev l) = Ok (rev l').
Proof.
  revert l'. induction l as [| x l IH]; intros l' H.
  - injection H as <-. reflexivity.
  - apply mapM_cons_inv in H as (y & ys & Hx & Ht & ->). cbn [rev].
    apply mapM_app_ok; [apply IH, Ht |]. cbn. rewrite Hx. reflexivity.
Qed.

Lemma mapM_lift {A A' C C' : Type} (h : A -> result C) (h' : A' -> result C')
    (k : A -> A') (k' : C -> C') (l : list A) (l' : list C) :
  (forall x y, h x = Ok y -> h' (k x) = Ok (k' y)) ->
  mapM h l = Ok l' -> mapM h' (map k l) = Ok (map k' l').
Proof.
  intros Hk. revert l'. induction l as [| x l IH]; intros l' H.
  - injection H as <-. reflexivity.
  - apply mapM_cons_inv in H as (y & ys & Hx & Ht & ->).
    cbn [map mapM]. rewrite (Hk x y Hx). cbn [rbind]. rewrite (IH ys Ht). reflexivity.
Qed.

Lemma map_rows_augment (k : list Q -> list Q) (coins : bool * bool) (image : Image) :
  map (map k) (augment coins image) = augment coins (map (map k) image).
Proof.
  unfold augment, flip_up_down, flip_left_right.
  destruct coins as [[|] [|]]; cbn [fst snd].
  - rewrite <- map_rev, !map_map. apply map_ext. intros row. apply map_rev.
  - apply map_rev.
  - rewrite !map_map. apply map_ext. intros row. apply map_rev.
  - reflexivity.
Qed.

Lemma mapM_rows_augment (h : list Q -> result (list Q)) (coins : bool * bool)
    (image image' : Image) :
  mapM (mapM h) image = Ok image' ->
  mapM (mapM h) (augment coins image) = Ok (augment coins image').
Proof.
  intros H. unfold augment, flip_up_down, flip_left_right.
  assert (H1 : mapM (mapM h) (if fst coins then rev image else image)
               = Ok (if fst coins then rev image' else image')).
  { destruct (fst coins); [apply mapM_rev |]; exact H. }
  destruct (snd coins); [| exact H1].
  apply (mapM_lift _ _ _ _ _ _ (fun row row' => mapM_rev h row row') H1).
Qed.

Lemma normalize_augment (coins : bool * bool) (raw image : Image) (model : string) :
  normalize raw model = Ok image ->
  normalize (augment coins raw) model = Ok (augment coins image).
Proof.
  unfold normalize, tmap, reverse_channels.
  destruct (in_tuple model ["vgg"; "resnet"]).
  - rewrite !map_rows_augment. apply mapM_rows_augment.
  - intros [= <-]. rewrite !map_rows_augment. reflexivity.
Qed.

(** Augmentation commutes with the rest of the preprocessing: on a file
    whose decoded image lies in [0, 1], the sample produced with
    augmentation is the flipped sample produced without it, with the same
    label and file name. *)
Theorem preprocess_augmentation_flips (rd : string -> Z -> result Image)
    (coins : bool * bool) (filename : string) (size : Z) (model : string)
    (raw image : Image) (label : Q) (path : string) :
  rd filename size = Ok raw ->
  values_in 0 1 raw ->
  preprocess rd coins filename size false model = Ok (image, label, path) ->
  preprocess rd coins filename size true model = Ok (augment coins image, label, path).
Proof.
  intros Hrd Hraw. unfold preprocess, get_image. rewrite Hrd.
  destruct (get_label filename) as [l | e]; [| discriminate]. cbn [rbind].
  assert (Hclip : clip_by_value (augment coins raw) 0 1 = augment coins raw).
  { unfold clip_by_value. apply (tmap_id_on _ 0 1); [| apply values_in_augment, Hraw].
    intros x H0 H1. apply clip_in_range; assumption. }
  rewrite Hclip.
  destruct (normalize raw model) as [img | e] eqn:En; [| discriminate]. cbn [rbind].
  intros [= <- <- <-]. rewrite (normalize_augment coins raw img model En). reflexivity.
Qed.

Lemma preprocess_augmentation_flips_witness :
  preprocess (fun _ _ => Ok [[[1 # 2; 1 # 4; 1]; [0; 0; 1]]]%Q) (false, true)
    "val/normal/b.jpg" 64 true "logreg"
  = Ok ([[[(0 - 0.5) * 2; (0 - 0.5) * 2; (1 - 0.5) * 2];
          [((1 # 2) - 0.5) * 2; ((1 # 4) - 0.5) * 2; (1 - 0.5) * 2]]]%Q,
        0%Q, "val/normal/b.jpg").
Proof.
  apply (preprocess_augmentation_flips (fun _ _ => Ok [[[1 # 2; 1 # 4; 1]; [0; 0; 1]]]%Q)
           (false, true) "val/normal/b.jpg" 64 "logreg"
           [[[1 # 2; 1 # 4; 1]; [0; 0; 1]]]%Q
           [[[((1 # 2) - 0.5) * 2; ((1 # 4) - 0.5) * 2; (1 - 0.5) * 2];
             [(0 - 0.5) * 2; (0 - 0.5) * 2; (1 - 0.5) * 2]]]%Q).
  - reflexivity.
  - repeat constructor; cbn; discriminate.
  - reflexivity.
Defined.

Lemma mapM_ok_iff {A C : Type} (h : A -> result C) (l : list A) :
  is_ok (mapM h l) = true <-> Forall (fun x => is_ok (h x) = true) l.
Proof.
  induction l as [| x l IH]; cbn [mapM].
  - split; [constructor | reflexivity].
  - destruct (h x) as [y | e] eqn:Ex; cbn [rbind].
    + destruct (mapM h l) as [ys | e]; cbn [rbind is_ok] in *.
      * split; [intros _; constructor; [rewrite Ex; reflexivity | apply IH; reflexivity]
               | reflexivity].
      * split; [discriminate |]. intros H. apply List.Forall_cons_iff in H as [_ H].
        apply IH, H.
    + split; [discriminate |]. intros H. apply List.Forall_cons_iff in H as [H _].
      rewrite Ex in H. exact H.
Qed.

Lemma sub_means_ok (px : list Q) :
  is_ok (sub_means px) = true <-> (length px = 1%nat \/ length px = 3%nat).
Proof.
  destruct px as [| a [| b [| c [| d px]]]]; cbn; split;
    try discriminate; try tauto; try lia; intros [H | H]; discriminate.
Qed.

(** For an ImageNet-style backbone, [normalize] succeeds exactly on the
    images whose pixels have one channel or three (one is stretched over
    the three means), and raises a shape error on any other; for every
    other backbone it never fails. *)
Theorem normalize_fails_only_on_channel_mismatch (image : Image) (model : string) :
  if in_tuple model ["vgg"; "resnet"]
  then is_ok (normalize image model) = true <-> broadcastable image
  else is_ok (normalize image model) = true.
Proof.
  unfold normalize. destruct (in_tuple model ["vgg"; "resnet"]); [| reflexivity].
  cbv beta iota zeta. unfold broadcastable, reverse_channels, tmap.
  etransitivity; [apply mapM_ok_iff |].
  rewrite !map_map, List.Forall_map.
  apply Forall_iff. intros row.
  etransitivity; [apply mapM_ok_iff |].
  rewrite !map_map, List.Forall_map.
  apply Forall_iff. intros px.
  etransitivity; [apply sub_means_ok |].
  rewrite length_rev, length_map. reflexivity.
Qed.

(** ** Metric values *)

Lemma safe_div_le_1 (a b : Q) : (0 <= a -> a <= b -> safe_div a b <= 1)%Q.
Proof.
  intros Ha Hab. unfold safe_div. destruct (Qle_bool b 0) eqn:E; [discriminate |].
  assert (Hb : (0 < b)%Q).
  { apply Qnot_le_lt. intros H. apply Qle_bool_iff in H. congruence. }
  apply Qle_shift_div_r; [exact Hb | lra].
Qed.

(** With non-negative counts, precision and recall lie in [0, 1], and F1
    is either not-a-number or a finite value in [0, 1]: it is never
    infinite. *)
Theorem metric_values_in_unit_interval (m : Metrics) :
  nonneg_counts m ->
  (0 <= ppv m /\ ppv m <= 1)%Q /\
  (0 <= sens m /\ sens m <= 1)%Q /\
  (f1 m = NaN \/ exists q, f1 m = Fin q /\ (0 <= q /\ q <= 1)%Q).
Proof.
  intros Hm. destruct (precision_recall_nonneg m Hm) as [Hp0 Hs0].
  destruct Hm as (H1 & H2 & H3 & H4).
  assert (Hp1 : (ppv m <= 1)%Q) by (apply safe_div_le_1; lra).
  assert (Hs1 : (sens m <= 1)%Q) by (apply safe_div_le_1; lra).
  split; [split; assumption |]. split; [split; assumption |].
  unfold f1, fdiv. destruct (Qeq_bool (ppv m + sens m) 0) eqn:E.
  - left. apply Qeq_bool_eq in E.
    assert (Hn : 2 * (ppv m * sens m) == 0) by nra.
    rewrite (Qeq_eq_bool _ _ Hn). reflexivity.
  - right. eexists. split; [reflexivity |].
    apply Qeq_bool_neq in E.
    assert (Hpos : (0 < ppv m + sens m)%Q).
    { apply Qnot_le_lt. intros H. apply E. lra. }
    split.
    + apply Qle_shift_div_l; [exact Hpos | nra].
    + apply Qle_shift_div_r; [exact Hpos | nra].
Qed.

Lemma metric_values_in_unit_interval_witness :
  (0 <= ppv (metric_update 1 [(true, true); (false, true); (true, false)] initial_metrics)
   /\ ppv (metric_update 1 [(true, true); (false, true); (true, false)] initial_metrics)
      <= 1)%Q.
Proof.
  apply (metric_values_in_unit_interval
           (metric_update 1 [(true, true); (false, true); (true, false)] initial_metrics)).
  apply metric_update_nonneg, initial_metrics_nonneg.
Defined.

Lemma Qsum_to_float (bs : list bool) : Qsum (map to_float bs) == count_true bs.
Proof.
  unfold count_true. induction bs as [| b bs IH]; [reflexivity |].
  change (Qsum (map to_float (b :: bs))) with (to_float b + Qsum (map to_float bs))%Q.
  rewrite IH. destruct b.
  - rewrite filter_cons_True by reflexivity. cbn [length to_float].
    rewrite Nat2Z.inj_succ, <- Z.add_1_l, inject_Z_plus. reflexivity.
  - rewrite filter_cons_False by discriminate. cbn [to_float]. ring.
Qed.

Lemma Qsum_is_correct (lp : list (bool * bool)) : Qsum (is_correct lp) == agreeing lp.
Proof.
  unfold is_correct, agreeing. rewrite <- Qsum_to_float, map_map.
  erewrite map_ext; [reflexivity |]. intros [l p]. reflexivity.
Qed.

Lemma agreeing_app (a b : list (bool * bool)) :
  agreeing (a ++ b) == agreeing a + agreeing b.
Proof.
  unfold agreeing, count_true.
  rewrite map_app, filter_app, length_app, Nat2Z.inj_add, inject_Z_plus. reflexivity.
Qed.

Lemma fold_updates_vars (results : list (Q * list (bool * bool))) (m : Metrics) :
  let m' := fold_updates results m in
  total (mean_loss_vars m') == total (mean_loss_vars m) + Qsum (map fst results) /\
  count (mean_loss_vars m')
    == count (mean_loss_vars m) + inject_Z (Z.of_nat (length results)) /\
  total (acc_vars m') == total (acc_vars m) + agreeing (concat (map snd results)) /\
  count (acc_vars m')
    == count (acc_vars m)
       + inject_Z (Z.of_nat (length (concat (map snd results)))).
Proof.
  revert m. induction results as [| [lv lp] results IH]; intros m; cbv zeta.
  - cbn [fold_updates fold_left map concat length Z.of_nat].
    change (Qsum []) with 0%Q. change (agreeing []) with 0%Q.
    change (inject_Z 0) with 0%Q. repeat split; ring.
  - cbn [fold_updates fold_left fst snd map concat].
    fold (fold_updates results (metric_update lv lp m)).
    destruct (IH (metric_update lv lp m)) as (Ht & Hc & Hat & Hac).
    rewrite Ht, Hc, Hat, Hac.
    cbn [metric_update mean_loss_vars acc_vars update_op mean_loss_metric acc_metric
           create_reset_metric fst accumulate tf_metrics_mean tf_metrics_accuracy
           total count length].
    change (Qsum (lv :: map fst results)) with (lv + Qsum (map fst results))%Q.
    change (Qsum [lv]) with (lv + 0)%Q.
    replace (Z.of_nat (S (length results))) with (1 + Z.of_nat (length results))%Z by lia.
    rewrite Qsum_is_correct, agreeing_app, length_app, !Nat2Z.inj_add, !inject_Z_plus.
    unfold is_correct. rewrite length_map.
    change (Z.of_nat 1) with 1%Z.
    change (inject_Z 1) with 1%Q.
    repeat split; ring.
Qed.

(** Over an epoch, the reported loss is the plain mean of the batch
    losses (a short last batch weighs as much as a full one), while the
    reported accuracy is the share of agreeing predictions among all
    samples of all batches. *)
Theorem epoch_aggregates (results : list (Q * list (bool * bool))) (m0 : Metrics) :
  let m := fold_updates results (metric_reset m0) in
  mean_loss_of m
    == safe_div (Qsum (map fst results)) (inject_Z (Z.of_nat (length results))) /\
  acc_of m
    == safe_div (agreeing (concat (map snd results)))
         (inject_Z (Z.of_nat (length (concat (map snd results))))).
Proof.
  cbv zeta.
  destruct (fold_updates_vars results (metric_reset m0)) as (Ht & Hc & Hat & Hac).
  cbn [metric_reset mean_loss_vars acc_vars reset_op mean_loss_metric acc_metric
         create_reset_metric init_vars tf_metrics_mean tf_metrics_accuracy total count]
    in Ht, Hc, Hat, Hac.
  unfold mean_loss_of, acc_of.
  cbn [metric_op mean_loss_metric acc_metric create_reset_metric value_of
         tf_metrics_mean tf_metrics_accuracy].
  split; apply safe_div_comp.
  - rewrite Ht. ring.
  - rewrite Hc. ring.
  - rewrite Hat. ring.
  - rewrite Hac. ring.
Qed.

(** ** Whole runs *)

Section Runs.
Variable B : Backend.
Variable data : Data B.
Variable cfg : Config.
Variable g : Graph.





Lemma run_epoch_inv (op : fetch) (st st' : State B) :
  is_train_op op ->
  run_epoch B data cfg g op st = Ok st' ->
  exists st1 st2 ml av,
    train_pass B data cfg g op (emit st [EpochBegin op (global_epoch st)]) = Ok st1 /\
    val_pass B data cfg g st1 = Ok (st2, (ml, av)) /\
    st' = (if checkpoint cfg
           then save_model B ml av (with_counters st2 (global_step st2) (global_epoch st2 + 1))
           else with_counters st2 (global_step st2) (global_epoch st2 + 1)).
Proof.
  intros Hop. unfold run_epoch.
  destruct (train_pass B data cfg g op _) as [st1 | e] eqn:Et; cbn [rbind];
    [| discriminate].
  destruct (val_pass B data cfg g st1) as [[st2 [ml av]] | e] eqn:Ev; cbn [rbind];
    [| discriminate].
  intros [= <-]. exists st1, st2, ml, av. split; [reflexivity |].
  split; [exact Ev | reflexivity].
Qed.
End Runs.



Lemma batches_seen_app {B : Backend} (data : Data B) (start n m : nat) :
  batches_seen data start (n + m)
  = batches_seen data start n + batches_seen data (start + n) m.
Proof.
  revert start. induction n as [| n IH]; intros start.
  - cbn. rewrite Nat.add_0_r. reflexivity.
  - cbn [Nat.add batches_seen]. rewrite IH.
    replace (S start + n)%nat with (start + S n)%nat by lia. lia.
Qed.

Section Totals.
Variable B : Backend.
Variable data : Data B.
Variable cfg : Config.
Variable g : Graph.

Lemma run_epoch_files (op : fetch) (st st' : State B) :
  is_train_op op ->
  run_epoch B data cfg g op st = Ok st' ->
  (checkpoint cfg = false -> files st' = files st) /\
  (checkpoint cfg = true ->
   model_file_epochs (files st')
   = (model_file_epochs (files st) ++ [global_epoch st + 1])%list).
Proof.
  intros Hop He.
  destruct (run_epoch_inv B data cfg g op st st' Hop He)
    as (st1 & st2 & ml & av & Ht & Hv & ->).
  destruct (train_pass_spec B data cfg g op (emit st [EpochBegin op (global_epoch st)]) Hop)
    as (st1' & Ht' & [Hge1 Hf1 _] & _).
  rewrite Ht in Ht'. injection Ht' as <-.
  destruct (val_pass_spec B data cfg g st1) as (st2' & r & Hv' & [_ Hge2 Hf2 _ _] & _).
  rewrite Hv in Hv'. injection Hv' as <- _.
  cbn [emit files global_epoch] in Hge1, Hf1.
  split; intros Hc; rewrite Hc.
  - cbn [with_counters files]. congruence.
  - unfold model_file_epochs.
    cbn [save_model emit with_files with_counters files keras_models global_epoch].
    rewrite map_app, Hf2, Hf1, Hge2, Hge1. reflexivity.
Qed.

Lemma epoch_loop_totals (op : fetch) :
  is_train_op op ->
  forall (l : list Z) (st st' : State B),
    for_each B l (fun _ st => run_epoch B data cfg g op st) st = Ok st' ->
    global_step st'
      = global_step st + batches_seen data (train_inits (sess st)) (length l) /\
    train_inits (sess st') = (train_inits (sess st) + length l)%nat /\
    global_epoch st' = global_epoch st + Z.of_nat (length l) /\
    (checkpoint cfg = false -> files st' = files st) /\
    (checkpoint cfg = true ->
     model_file_epochs (files st')
     = (model_file_epochs (files st)
        ++ map (fun i => global_epoch st + 1 + Z.of_nat i) (seq 0 (length l)))%list).
Proof.
  intros Hop. induction l as [| x l IH]; intros st st'.
  - cbn [for_each length batches_seen seq map]. intros [= <-].
    rewrite app_nil_r, Nat.add_0_r. repeat split; auto; lia.
  - cbn [for_each].
    destruct (run_epoch_spec B data cfg g op st Hop) as (st1 & He & Hge & Hs & Hn & _).
    pose proof (run_epoch_files op st st1 Hop He) as [Hoff Hon].
    rewrite He. cbn [rbind]. intros Hl.
    destruct (IH st1 st' Hl) as (Hs' & Hn' & Hge' & Hoff' & Hon').
    cbn [length batches_seen]. rewrite Hn in Hs', Hn'.
    split; [lia |]. split; [lia |]. split; [lia |]. split.
    + intros Hc. rewrite (Hoff' Hc). exact (Hoff Hc).
    + intros Hc. rewrite (Hon' Hc), (Hon Hc), <- app_assoc. f_equal.
      cbn [seq map app]. f_equal; [lia |].
      rewrite (map_seq_offset _ 1). apply map_ext. intros i. lia.
Qed.

Lemma training_loop_totals (st st' : State B) :
  let n := (Z.to_nat (clf_epochs cfg) + Z.to_nat (finetune_epochs cfg))%nat in
  training_loop B data cfg g st = Ok st' ->
  global_step st' = global_step st + batches_seen data (train_inits (sess st)) n /\
  (checkpoint cfg = false -> files st' = files st) /\
  (checkpoint cfg = true ->
   model_file_epochs (files st')
   = (model_file_epochs (files st)
      ++ map (fun i => global_epoch st + 1 + Z.of_nat i) (seq 0 n))%list).
Proof.
  cbv zeta. unfold training_loop. cbn [for_each].
  destruct (for_each B (py_range (global_epoch st) (global_epoch st + clf_epochs cfg)) _ st)
    as [st1 | e] eqn:E1; cbn [rbind]; [| discriminate].
  destruct (for_each B (py_range (global_epoch st1)
                          (global_epoch st1 + finetune_epochs cfg)) _ st1)
    as [st2 | e] eqn:E2; cbn [rbind]; [| discriminate].
  intros [= <-].
  destruct (epoch_loop_totals clf_train_op (or_introl eq_refl) _ _ _ E1)
    as (Hs1 & Hn1 & Hg1 & Hoff1 & Hon1).
  destruct (epoch_loop_totals finetune_train_op (or_intror eq_refl) _ _ _ E2)
    as (Hs2 & Hn2 & Hg2 & Hoff2 & Hon2).
  rewrite py_range_length in *. rewrite batches_seen_app.
  split; [rewrite Hs2, Hs1, Hn1; lia |]. split.
  - intros Hc. rewrite (Hoff2 Hc). exact (Hoff1 Hc).
  - intros Hc. rewrite (Hon2 Hc), (Hon1 Hc), <- app_assoc. f_equal.
    rewrite seq_app, map_app. f_equal.
    rewrite (map_seq_offset _ (0 + Z.to_nat (clf_epochs cfg))).
    apply map_ext. intros i. rewrite Hg1. lia.
Qed.
End Totals.




(** With checkpointing off a run writes nothing: the files of the
    experiment directory are at the end what they were at the start. *)
Theorem no_checkpoint_no_files (B : Backend) (data : Data B) (cfg : Config) (g : Graph)
    (fs : Files B) (st : State B) :
  checkpoint cfg = false ->
  train_session B data cfg g fs = Ok st ->
  files st = fs.
Proof.
  intros Hc. unfold train_session. cbn [initialize_variables].
  destruct (resume cfg).
  - destruct (saver_restore B cfg fs _) as [s | e]; cbn [rbind]; [| discriminate].
    destruct (pickle_load B cfg fs) as [p | e]; cbn [rbind]; [| discriminate].
    intros Ht. apply (training_loop_totals B data cfg g) in Ht as (_ & Hoff & _).
    exact (Hoff Hc).
  - cbn [rbind]. intros Ht.
    apply (training_loop_totals B data cfg g) in Ht as (_ & Hoff & _).
    exact (Hoff Hc).
Qed.

Lemma no_checkpoint_no_files_witness :
  exists st,
    train_session toy_backend toy_data
      (with_checkpoint false (toy_config "vgg" 1 1 0 (1 # 10000) false))
      (toy_graph "vgg" 0) (no_files toy_backend) = Ok st /\
    files st = no_files toy_backend.
Proof.
  destruct (train_session toy_backend toy_data
              (with_checkpoint false (toy_config "vgg" 1 1 0 (1 # 10000) false))
              (toy_graph "vgg" 0) (no_files toy_backend)) as [st | e] eqn:E.
  - exists st. split; [reflexivity |].
    exact (no_checkpoint_no_files toy_backend toy_data
             (with_checkpoint false (toy_config "vgg" 1 1 0 (1 # 10000) false))
             (toy_graph "vgg" 0) (no_files toy_backend) st eq_refl E).
  - exfalso.
    rewrite (train_session_fresh toy_backend toy_data (toy_graph "vgg" 0)
               (with_checkpoint false (toy_config "vgg" 1 1 0 (1 # 10000) false))
               (no_files toy_backend) eq_refl) in E.
    rewrite (proj1 (training_loop_h_spec toy_backend toy_data (toy_graph "vgg" 0)
                      (with_checkpoint false (toy_config "vgg" 1 1 0 (1 # 10000) false))
                      (fresh_state toy_backend (no_files toy_backend)))) in E.
    destruct (training_loop_spec toy_backend toy_data
                (with_checkpoint false (toy_config "vgg" 1 1 0 (1 # 10000) false))
                (toy_graph "vgg" 0) (fresh_state toy_backend (no_files toy_backend)))
      as (st & Hs & _).
    rewrite Hs in E. discriminate E.
Defined.



(** ** Resuming and the files it needs *)



(** ** The variable lists at the ends of the range of [finetune_layers] *)

Lemma py_last_all {A : Type} (k : Z) (l : list A) :
  Z.of_nat (length l) <= k -> py_last k l = l.
Proof.
  intros H. unfold py_last.
  replace (length l - Z.to_nat k)%nat with O by lia. reflexivity.
Qed.

(** The fine-tuning variable list always contains the classifier's; with
    [finetune_layers] not positive, or with the logistic regression model,
    it is the classifier's list and fine-tuning trains the new head only;
    with [finetune_layers] at least the number of backbone layers it
    holds every trainable weight of the backbone followed by the head's. *)
Theorem finetune_var_list_range (apps : Applications) (cfg : Config) (g : Graph) :
  snd (build_graph apps cfg) = Ok g ->
  incl (clf_var_list g) (finetune_var_list g) /\
  (finetune_layers cfg <= 0 -> finetune_var_list g = clf_var_list g) /\
  (model_name cfg = "logreg" -> finetune_var_list g = clf_var_list g) /\
  (Z.of_nat (length (base_layers apps cfg)) <= finetune_layers cfg ->
   0 < finetune_layers cfg ->
   finetune_var_list g
   = (concat (map own_trainable (base_layers apps cfg)) ++ clf_var_list g)%list).
Proof.
  intros Hg. destruct (optim_block_spec apps cfg g Hg) as (_ & -> & -> & _).
  split; [apply incl_appr, incl_refl |]. unfold unfrozen. repeat split.
  - intros H. destruct (Z.ltb_spec 0 (finetune_layers cfg)); [lia | reflexivity].
  - intros H. unfold base_layers. rewrite H. cbn [String.eqb Ascii.eqb Bool.eqb].
    destruct (0 <? finetune_layers cfg); reflexivity.
  - intros H H0. destruct (Z.ltb_spec 0 (finetune_layers cfg)); [| lia].
    rewrite py_last_all by exact H. reflexivity.
Qed.

Lemma finetune_var_list_range_witness :
  finetune_var_list (toy_graph "resnet" 9)
  = (map base_var [0; 1; 2; 3; 6; 7]%nat ++ [dense_kernel; dense_bias])%list.
Proof.
  exact (proj2 (proj2 (proj2 (finetune_var_list_range toy_apps
                  (toy_config "resnet" 1 1 9 (1 # 10000) false)
                  (toy_graph "resnet" 9) eq_refl))) ltac:(vm_compute; discriminate) eq_refl).
Defined.

(** ** What the two halves of an epoch log *)

Section Logging.
Variable B : Backend.
Variable data : Data B.
Variable cfg : Config.
Variable g : Graph.















End Logging.






(** ** Variable initialization *)

Lemma visit_loop {T : Type} (mid : list (Init.TFVariable T)) :
  forall (pre : list (Init.TFVariable T)) (acc : list nat),
  exists new,
    fold_left Init.visit (seq (length pre) (length mid)) ((pre ++ mid)%list, acc)
    = ((pre ++ map (fun v => if Init.not_keras_initialized v
                             then Init.set_keras_initialized v else v) mid)%list,
       (acc ++ new)%list) /\
    forall pre2 : list (Init.TFVariable T),
      length pre2 = length pre ->
      Init.variables_initializer new
        (pre2 ++ map (fun v => if Init.not_keras_initialized v
                               then Init.set_keras_initialized v else v) mid)%list
      = (pre2 ++ map initialized mid)%list.
Proof.
  induction mid as [| x mid IH]; intros pre acc.
  - exists []. cbn. rewrite !app_nil_r. split; [reflexivity |]. intros pre2 _.
    reflexivity.
  - cbn [length seq fold_left]. unfold Init.visit at 2.
    rewrite list_lookup_middle by reflexivity.
    destruct (Init.not_keras_initialized x) eqn:Hx.
    + rewrite alter_middle.
      destruct (IH (pre ++ [Init.set_keras_initialized x])%list
                  (acc ++ [length pre])%list) as (new & Hf & Hi).
      rewrite length_app in Hf. cbn [length] in Hf.
      replace (length pre + 1)%nat with (S (length pre)) in Hf by lia.
      rewrite <- !app_assoc in Hf. cbn [app] in Hf.
      exists (length pre :: new). split.
      * rewrite Hf. cbn [map]. rewrite Hx. reflexivity.
      * intros pre2 Hlen. cbn [map]. rewrite Hx.
        unfold Init.variables_initializer. cbn [fold_left].
        rewrite <- Hlen, alter_middle.
        specialize (Hi (pre2 ++ [Init.run_initializer (Init.set_keras_initialized x)])%list).
        rewrite <- !app_assoc in Hi. cbn [app] in Hi.
        unfold Init.variables_initializer in Hi. rewrite Hi.
        -- unfold initialized at 2. rewrite Hx. reflexivity.
        -- rewrite !length_app. cbn [length]. lia.
    + destruct (IH (pre ++ [x])%list acc) as (new & Hf & Hi).
      rewrite length_app in Hf. cbn [length] in Hf.
      replace (length pre + 1)%nat with (S (length pre)) in Hf by lia.
      rewrite <- !app_assoc in Hf. cbn [app] in Hf.
      exists new. split.
      * rewrite Hf. cbn [map]. rewrite Hx. reflexivity.
      * intros pre2 Hlen. cbn [map]. rewrite Hx.
        specialize (Hi (pre2 ++ [x])%list).
        rewrite <- !app_assoc in Hi. cbn [app] in Hi. rewrite Hi.
        -- unfold initialized at 2. rewrite Hx. reflexivity.
        -- rewrite !length_app. cbn [length]. lia.
Qed.

(** The loop and the initializer together act on every global variable
    on its own. *)
Lemma initialize_variables_globals {T : Type} (vs : Init.Variables T) :
  Init.global_variables (fst (Init.initialize_variables vs))
  = map initialized (Init.global_variables vs).
Proof.
  unfold Init.initialize_variables.
  destruct (visit_loop (Init.global_variables vs) [] []) as (new & Hf & Hi).
  cbn [length app] in Hf. rewrite Hf. cbn [fst Init.global_variables].
  exact (Hi [] eq_refl).
Qed.

Lemma initialized_marked {T : Type} (v : Init.TFVariable T) :
  Init.not_keras_initialized (initialized v) = false.
Proof.
  unfold initialized. destruct (Init.not_keras_initialized v) eqn:E; [reflexivity | exact E].
Qed.

Lemma not_keras_initialized_false {T : Type} (v : Init.TFVariable T) :
  Init.not_keras_initialized v = false <-> Init.keras_initialized v = Some true.
Proof.
  unfold Init.not_keras_initialized.
  destruct (Init.keras_initialized v) as [[|] |]; split; congruence.
Qed.

(** A variable that Keras has marked as initialized is left alone: it
    keeps the value it has in the session (the pretrained weights are not
    erased) and stays marked. *)
Theorem initialize_variables_keeps_marked {T : Type} (vs : Init.Variables T) (i : nat)
    (v : Init.TFVariable T) :
  Init.global_variables vs !! i = Some v ->
  Init.keras_initialized v = Some true ->
  Init.global_variables (fst (Init.initialize_variables vs)) !! i = Some v.
Proof.
  intros Hi Hk. rewrite initialize_variables_globals, list_lookup_fmap, Hi.
  cbn. unfold initialized.
  rewrite (proj2 (not_keras_initialized_false v) Hk). reflexivity.
Qed.

Lemma initialize_variables_keeps_marked_witness :
  Init.global_variables (fst (Init.initialize_variables toy_variables)) !! 2%nat
  = Some pretrained_variable.
Proof.
  exact (initialize_variables_keeps_marked toy_variables 2 pretrained_variable
           eq_refl eq_refl).
Defined.

(** After the call every global variable carries the mark, every
    variable that did not carry it has its initial value, every local
    variable is initialized, and the counters it returns are 0; so when
    the variables marked before had values, every variable has one. *)
Theorem initialize_variables_marks_all {T : Type} (vs : Init.Variables T) :
  let vs' := fst (Init.initialize_variables vs) in
  snd (Init.initialize_variables vs) = (0, 0) /\
  length (Init.global_variables vs') = length (Init.global_variables vs) /\
  Forall (fun v => Init.keras_initialized v = Some true) (Init.global_variables vs') /\
  (forall i v, Init.global_variables vs !! i = Some v ->
               Init.keras_initialized v <> Some true ->
               exists v', Init.global_variables vs' !! i = Some v' /\
                          Init.var_value v' = Some (Init.initial v) /\
                          Init.initial v' = Init.initial v) /\
  Forall (fun v => Init.var_value v = Some (Init.initial v)) (Init.local_variables vs') /\
  (marked_have_values (Init.global_variables vs) ->
   Forall (fun v => Init.var_value v <> None) (Init.global_variables vs')).
Proof.
  cbv zeta. rewrite initialize_variables_globals.
  split; [| split; [| split; [| split; [| split]]]].
  - unfold Init.initialize_variables.
    destruct (fold_left Init.visit _ _) as [heap u]. reflexivity.
  - apply length_map.
  - apply List.Forall_map, List.Forall_forall. intros v _.
    apply not_keras_initialized_false, initialized_marked.
  - intros i v Hi Hk. exists (initialized v). rewrite list_lookup_fmap, Hi.
    split; [reflexivity |]. unfold initialized.
    destruct (Init.not_keras_initialized v) eqn:E; [split; reflexivity |].
    apply not_keras_initialized_false in E. contradiction.
  - unfold Init.initialize_variables.
    destruct (fold_left Init.visit _ _) as [heap u]. cbn [fst Init.local_variables].
    apply List.Forall_map, List.Forall_forall. intros v _. reflexivity.
  - intros Hm. apply List.Forall_map. unfold marked_have_values in Hm.
    eapply List.Forall_impl; [| exact Hm]. intros v Hv. cbv beta in Hv |- *.
    unfold initialized. destruct (Init.not_keras_initialized v) eqn:E.
    + discriminate.
    + apply Hv, not_keras_initialized_false, E.
Qed.

(** A second call finds nothing to initialize among the global
    variables: it leaves each of them as the first call left it. *)
Theorem initialize_variables_idempotent {T : Type} (vs : Init.Variables T) :
  Init.global_variables
    (fst (Init.initialize_variables (fst (Init.initialize_variables vs))))
  = Init.global_variables (fst (Init.initialize_variables vs)).
Proof.
  rewrite (initialize_variables_globals (fst (Init.initialize_variables vs))).
  rewrite initialize_variables_globals, map_map. apply map_ext. intros v.
  unfold initialized at 1. rewrite initialized_marked. reflexivity.
Qed.

(** ** The input pipeline *)

Lemma chunks_spec {A : Type} (n : nat) :
  (0 < n)%nat ->
  forall (fuel : nat) (l : list A),
    (length l <= fuel)%nat ->
    concat (chunks fuel n l) = l /\
    Forall (fun c => (1 <= length c <= n)%nat) (chunks fuel n l) /\
    (l = [] -> chunks fuel n l = []) /\
    (l <> [] -> exists full last,
        chunks fuel n l = (full ++ [last])%list /\
        Forall (fun c => length c = n) full).
Proof.
  intros Hn. induction fuel as [| fuel IH]; intros l Hl.
  - destruct l; [| cbn in Hl; lia]. cbn. repeat split; auto. congruence.
  - destruct l as [| x l]; [cbn; repeat split; auto; congruence |].
    cbn [chunks]. set (l0 := x :: l) in *.
    assert (Hl0 : length l0 = S (length l)) by reflexivity.
    assert (Hs : (length (skipn n l0) <= fuel)%nat).
    { rewrite length_skipn. lia. }
    destruct (IH (skipn n l0) Hs) as (Hc & Hf & He & Hne).
    split; [cbn [concat]; rewrite Hc; apply firstn_skipn |].
    split; [constructor; [| exact Hf] |].
    { rewrite length_firstn. lia. }
    split; [discriminate |]. intros _.
    destruct (skipn n l0) as [| y r] eqn:Er.
    + exists [], (firstn n l0). rewrite (He eq_refl). split; [reflexivity | constructor].
    + destruct Hne as (full & last & Hch & Hfull); [discriminate |].
      exists (firstn n l0 :: full), last. rewrite Hch. split; [reflexivity |].
      constructor; [| exact Hfull].
      rewrite length_firstn. apply Nat.min_l.
      assert (length (skipn n l0) = S (length r)) by (rewrite Er; reflexivity).
      rewrite length_skipn in H. lia.
Qed.

(** Every batch holds between one and [batch_size] elements, all but
    the last exactly [batch_size], and together they are the elements in
    order. *)
Theorem batch_partitions {A : Type} (batch_size : Z) (l : list A) :
  0 < batch_size ->
  exists cs,
    batch batch_size l = Ok cs /\
    concat cs = l /\
    Forall (fun c => 1 <= Z.of_nat (length c) <= batch_size) cs /\
    (l = [] -> cs = []) /\
    (l <> [] -> exists full last,
        cs = (full ++ [last])%list /\
        Forall (fun c => Z.of_nat (length c) = batch_size) full).
Proof.
  intros Hb. unfold batch. destruct (Z.ltb_spec 0 batch_size) as [_ | H]; [| lia].
  eexists. split; [reflexivity |].
  destruct (chunks_spec (A := A) (Z.to_nat batch_size) ltac:(lia) (length l) l (le_n _))
    as (Hc & Hf & He & Hne).
  split; [exact Hc |]. split; [| split; [exact He |]].
  - eapply List.Forall_impl; [| exact Hf]. cbv beta. intros c Hcl. lia.
  - intros Hl. destruct (Hne Hl) as (full & last & Hch & Hfull).
    exists full, last. split; [exact Hch |].
    eapply List.Forall_impl; [| exact Hfull]. cbv beta. intros c Hcl. lia.
Qed.

Lemma batch_partitions_witness :
  exists cs,
    batch 2 [1; 2; 3] = Ok cs /\ concat cs = [1; 2; 3] /\
    Forall (fun c => 1 <= Z.of_nat (length c) <= 2) cs.
Proof.
  destruct (batch_partitions 2 [1; 2; 3] ltac:(lia)) as (cs & Hb & Hc & Hf & _).
  exists cs. split; [exact Hb |]. split; [exact Hc | exact Hf].
Defined.

Lemma mapM_id_map {A C : Type} (f : A -> result C) (l : list A) :
  mapM (fun r => r) (map f l) = mapM f l.
Proof.
  induction l as [| x l IH]; [reflexivity |]. cbn [map mapM]. rewrite IH. reflexivity.
Qed.

Lemma mapM_concat {C : Type} (cs : list (list (result C))) (samples : list (list C)) :
  mapM (fun r => r) (map (mapM (fun r => r)) cs) = Ok samples ->
  mapM (fun r => r) (concat cs) = Ok (concat samples).
Proof.
  revert samples. induction cs as [| c cs IH]; intros samples H.
  - injection H as <-. reflexivity.
  - cbn [map] in H. apply mapM_cons_inv in H as (y & ys & Hy & Hys & ->).
    cbn [concat]. apply mapM_app_ok; [exact Hy | apply IH, Hys].
Qed.

Lemma preprocess_ok (rdr : string -> Z -> result Image) (c : bool * bool) (x : string)
    (ps : Z) (aug : bool) (mn : string) (s : Sample) :
  preprocess rdr c x ps aug mn = Ok s ->
  snd s = x /\ get_label x = Ok (snd (fst s)).
Proof.
  unfold preprocess. destruct (get_label x) as [l | e]; cbn [rbind]; [| discriminate].
  destruct (get_image rdr x ps) as [im | e]; cbn [rbind]; [| discriminate].
  destruct (normalize _ mn) as [im' | e]; cbn [rbind]; [| discriminate].
  intros [= <-]. split; reflexivity.
Qed.

Lemma mapM_preprocess (rdr : string -> Z -> result Image) (c : string -> bool * bool)
    (ps : Z) (aug : bool) (mn : string) (files : list string) (ss : list Sample) :
  mapM (fun x => preprocess rdr (c x) x ps aug mn) files = Ok ss ->
  filenames ss = files /\ labelled ss.
Proof.
  revert ss. induction files as [| x files IH]; intros ss H.
  - injection H as <-. split; [reflexivity | constructor].
  - apply mapM_cons_inv in H as (y & ys & Hy & Hys & ->).
    apply preprocess_ok in Hy as [Hx Hl]. destruct (IH ys Hys) as [Hf Hls].
    split; [cbn; rewrite Hx; unfold filenames in Hf; rewrite Hf; reflexivity |].
    constructor; [rewrite Hx; exact Hl | exact Hls].
Qed.

(** The batches an initialization delivers carry the files of the
    dataset in the order it gives them, each with the label of its
    name. *)
Lemma dataset_batches_files (rdr : string -> Z -> result Image)
    (lf : string -> list string) (sh : nat -> list string -> list string)
    (coins : nat -> string -> bool * bool) (ds : Dataset) (n : nat)
    (bs : list (result (list Sample))) (samples : list (list Sample)) :
  dataset_batches rdr lf sh coins ds n = Ok bs ->
  mapM (fun r => r) bs = Ok samples ->
  filenames (concat samples)
  = match ds_shuffle ds with
    | Some _ => sh n (lf (ds_files ds))
    | None => lf (ds_files ds)
    end /\
  labelled (concat samples) /\
  Forall (fun b => 1 <= Z.of_nat (length b) <= ds_batch_size ds) samples.
Proof.
  unfold dataset_batches, batch.
  destruct (Z.ltb_spec 0 (ds_batch_size ds)) as [Hb | Hb]; cbn [rbind]; [| discriminate].
  intros [= <-] Hs.
  set (els := dataset_elements rdr lf sh coins ds n) in *.
  destruct (chunks_spec (A := result Sample) (Z.to_nat (ds_batch_size ds)) ltac:(lia)
              (length els) els (le_n _)) as (Hc & Hf & _).
  pose proof (mapM_concat _ _ Hs) as Hcat. rewrite Hc in Hcat.
  unfold els, dataset_elements in Hcat. rewrite mapM_id_map in Hcat.
  apply mapM_preprocess in Hcat as [Hfiles Hlab].
  split; [exact Hfiles |]. split; [exact Hlab |].
  clear - Hs Hf Hb. revert samples Hs.
  induction (chunks (length els) (Z.to_nat (ds_batch_size ds)) els) as [| c cs IH];
    intros samples Hs.
  - injection Hs as <-. constructor.
  - cbn [map] in Hs. apply mapM_cons_inv in Hs as (y & ys & Hy & Hys & ->).
    apply List.Forall_cons_iff in Hf as [Hc Hcs]. constructor; [| apply IH; assumption].
    assert (Hlen : length y = length c).
    { clear - Hy. revert y Hy. induction c as [| r c IHc]; intros y Hy.
      - injection Hy as <-. reflexivity.
      - apply mapM_cons_inv in Hy as (z & zs & _ & Hzs & ->). cbn. f_equal. auto. }
    rewrite Hlen. lia.
Qed.

(** An epoch of training sees every listed file exactly once, in the
    order the shuffle drew, in batches of at least one and at most
    [batch_size] samples, each sample with the label of its file name. *)
Theorem training_epoch_sees_every_file_once (rdr : string -> Z -> result Image)
    (lf : string -> list string) (sh : nat -> list string -> list string)
    (coins : nat -> string -> bool * bool) (cfg : Config) (n : nat)
    (bs : list (result (list Sample))) (samples : list (list Sample)) :
  (forall k l, Permutation (sh k l) l) ->
  dataset_batches rdr lf sh coins (train_dataset cfg) n = Ok bs ->
  mapM (fun r => r) bs = Ok samples ->
  Permutation (filenames (concat samples)) (lf (train_path cfg ++ "/*/*.jpg")) /\
  labelled (concat samples) /\
  Forall (fun b => 1 <= Z.of_nat (length b) <= batch_size cfg) samples.
Proof.
  intros Hsh Hb Hs.
  destruct (dataset_batches_files rdr lf sh coins (train_dataset cfg) n bs samples Hb Hs)
    as (Hf & Hl & Hn).
  cbn [train_dataset ds_shuffle ds_files ds_batch_size] in Hf, Hn.
  split; [rewrite Hf; apply Hsh |]. split; [exact Hl | exact Hn].
Qed.

Lemma training_epoch_sees_every_file_once_witness :
  exists bs samples,
    dataset_batches toy_decode toy_list_files toy_shuffled toy_coins
      (train_dataset (toy_cfg 2)) 0 = Ok bs /\
    mapM (fun r => r) bs = Ok samples /\
    Permutation (filenames (concat samples)) toy_files.
Proof.
  eexists. eexists. split; [reflexivity |]. split; [reflexivity |].
  refine (proj1 (training_epoch_sees_every_file_once toy_decode toy_list_files toy_shuffled
                   toy_coins (toy_cfg 2) 0 _ _ _ eq_refl eq_refl)).
  intros k l. symmetry. apply Permutation_rev.
Defined.

(** The validation batches are the same at every initialization:
    neither the shuffle nor the flips nor the augmentation flag reach
    them, and they carry the listed files in listing order. *)
Theorem validation_batches_fixed (rdr : string -> Z -> result Image)
    (lf : string -> list string) (sh sh' : nat -> list string -> list string)
    (coins coins' : nat -> string -> bool * bool) (cfg : Config) (n m : nat) :
  dataset_batches rdr lf sh coins (val_dataset cfg) n
  = dataset_batches rdr lf sh' coins' (val_dataset cfg) m /\
  forall bs samples,
    dataset_batches rdr lf sh coins (val_dataset cfg) n = Ok bs ->
    mapM (fun r => r) bs = Ok samples ->
    filenames (concat samples) = lf (val_path cfg ++ "/*/*.jpg").
Proof.
  split.
  - unfold dataset_batches, dataset_elements, preprocess.
    cbn [val_dataset ds_shuffle ds_files ds_augmentation ds_patch_size ds_model_name
         ds_batch_size].
    reflexivity.
  - intros bs samples Hb Hs.
    exact (proj1 (dataset_batches_files rdr lf sh coins (val_dataset cfg) n bs samples Hb Hs)).
Qed.

Lemma get_label_class (x : string) (l : Q) :
  get_label x = Ok l ->
  l = to_float (has_class "mitosis" x) /\
  has_class "normal" x = negb (has_class "mitosis" x).
Proof.
  unfold get_label, has_class. rewrite py_index_penultimate. fold (class_token x).
  destruct (class_token x) as [tok |]; [| discriminate].
  destruct (String.eqb_spec tok "normal") as [-> | Hn]; cbn [orb].
  - intros [= <-]. split; reflexivity.
  - destruct (String.eqb tok "mitosis"); [| discriminate].
    intros [= <-]. split; reflexivity.
Qed.

Lemma boolean_mask_map {A C : Type} (f : A -> C) (m : A -> bool) (l : list A) :
  boolean_mask (map f l) (map m l) = map f (filter (fun a => m a = true) l).
Proof.
  unfold boolean_mask. induction l as [| a l IH]; [reflexivity |].
  cbn [map combine]. destruct (m a) eqn:E.
  - rewrite filter_cons_True by reflexivity. rewrite (filter_cons_True _ a) by exact E.
    cbn [map fst]. rewrite IH. reflexivity.
  - rewrite filter_cons_False by (cbn; congruence).
    rewrite (filter_cons_False _ a) by congruence. exact IH.
Qed.

Lemma filter_ext_Forall {A : Type} (p q : A -> bool) (l : list A) :
  Forall (fun a => p a = q a) l ->
  filter (fun a => p a = true) l = filter (fun a => q a = true) l.
Proof.
  induction 1 as [| a l Ha _ IH]; [reflexivity |].
  destruct (p a) eqn:E.
  - rewrite filter_cons_True by exact E. rewrite (filter_cons_True _ a) by congruence.
    rewrite IH. reflexivity.
  - rewrite filter_cons_False by congruence.
    rewrite (filter_cons_False _ a) by congruence. exact IH.
Qed.

Lemma filter_map_snd (p : string -> bool) (b : list Sample) :
  filter (fun x => p x = true) (map snd b)
  = map snd (filter (fun s : Sample => p (snd s) = true) b).
Proof.
  induction b as [| s b IH]; [reflexivity |]. cbn [map].
  destruct (p (snd s)) eqn:E.
  - rewrite filter_cons_True by exact E. rewrite (filter_cons_True _ s) by exact E.
    cbn [map]. rewrite IH. reflexivity.
  - rewrite filter_cons_False by congruence.
    rewrite (filter_cons_False _ s) by congruence. exact IH.
Qed.

Lemma filter_split {A : Type} (p : A -> bool) (l : list A) :
  Permutation (filter (fun a => p a = true) l ++ filter (fun a => negb (p a) = true) l) l.
Proof.
  induction l as [| a l IH]; [constructor |].
  destruct (p a) eqn:E.
  - rewrite filter_cons_True by exact E.
    rewrite (filter_cons_False _ a) by (rewrite E; discriminate).
    cbn [app]. constructor. exact IH.
  - rewrite filter_cons_False by congruence.
    rewrite (filter_cons_True _ a) by (rewrite E; reflexivity).
    symmetry. apply Permutation_cons_app. symmetry. exact IH.
Qed.

(** In a batch whose samples carry the labels of their file names, the
    positive mask selects exactly the files of the [mitosis] directory
    and the negative mask exactly those of the [normal] directory; the two
    selections split the batch, and the fraction of positives is the
    share of [mitosis] files. *)
Theorem minibatch_masks_split_by_class (b : list Sample) :
  labelled b ->
  mitosis_filenames b = of_class "mitosis" b /\
  normal_filenames b = of_class "normal" b /\
  Permutation (mitosis_filenames b ++ normal_filenames b) (filenames b) /\
  (length (mitosis_images b) + length (normal_images b))%nat = length b /\
  (b <> [] ->
   exists q, percent_pos b = Fin q /\
             q == inject_Z (Z.of_nat (length (of_class "mitosis" b)))
                  / inject_Z (actual_batch_size b)).
Proof.
  intros Hl.
  assert (Hpos : Forall (fun s : Sample =>
                   negb (Qeq_bool (snd (fst s)) 0) = has_class "mitosis" (snd s)) b).
  { eapply List.Forall_impl; [| exact Hl]. cbv beta. intros s Hs.
    apply get_label_class in Hs as [-> _]. destruct (has_class "mitosis" (snd s)); reflexivity. }
  assert (Hneg : Forall (fun s : Sample =>
                   negb (negb (Qeq_bool (snd (fst s)) 0)) = has_class "normal" (snd s)) b).
  { eapply List.Forall_impl; [| exact Hl]. cbv beta. intros s Hs.
    apply get_label_class in Hs as [-> ->].
    destruct (has_class "mitosis" (snd s)); reflexivity. }
  assert (Hm : mitosis_filenames b = of_class "mitosis" b).
  { unfold mitosis_filenames, of_class, pos_mask, labels, filenames.
    rewrite map_map, boolean_mask_map, filter_map_snd. f_equal.
    apply (filter_ext_Forall (fun s : Sample => negb (Qeq_bool (snd (fst s)) 0))
             (fun s : Sample => has_class "mitosis" (snd s))), Hpos. }
  assert (Hn : normal_filenames b = of_class "normal" b).
  { unfold normal_filenames, of_class, neg_mask, pos_mask, labels, filenames.
    rewrite !map_map, boolean_mask_map, filter_map_snd. f_equal.
    apply (filter_ext_Forall (fun s : Sample => negb (negb (Qeq_bool (snd (fst s)) 0)))
             (fun s : Sample => has_class "normal" (snd s))), Hneg. }
  assert (Hp : Permutation (mitosis_filenames b ++ normal_filenames b) (filenames b)).
  { unfold mitosis_filenames, normal_filenames, neg_mask, pos_mask, labels, filenames.
    rewrite !map_map, !boolean_mask_map, <- map_app. apply Permutation_map.
    apply (filter_split (fun s : Sample => negb (Qeq_bool (snd (fst s)) 0))). }
  split; [exact Hm |]. split; [exact Hn |]. split; [exact Hp |]. split.
  - unfold mitosis_images, normal_images, neg_mask, pos_mask, labels, images.
    rewrite !map_map, !boolean_mask_map, !length_map, <- length_app.
    apply Permutation_length.
    apply (filter_split (fun s : Sample => negb (Qeq_bool (snd (fst s)) 0))).
  - intros Hne. unfold percent_pos, reduce_mean, fdiv.
    assert (Hlen : (0 < length b)%nat) by (destruct b; [congruence | cbn; lia]).
    unfold actual_batch_size, images, labels. rewrite !length_map.
    match goal with
    | |- context [Qeq_bool (inject_Z ?n) 0] => destruct (Qeq_bool (inject_Z n) 0) eqn:E
    end.
    + apply Qeq_bool_iff in E. unfold Qeq in E.
      destruct b; [congruence | cbn in E; lia].
    + eexists. split; [reflexivity |].
      apply Qeq_bool_neq in E.
      assert (Hsum : Qsum (map (fun s : Sample => snd (fst s)) b)
                     == inject_Z (Z.of_nat (length (of_class "mitosis" b)))).
      { unfold of_class, filenames. rewrite filter_map_snd, length_map.
        clear - Hl. induction Hl as [| s b Hs _ IH]; [reflexivity |].
        apply get_label_class in Hs as [Hs _].
        change (Qsum (map _ (s :: b)))
          with (snd (fst s) + Qsum (map (fun s : Sample => snd (fst s)) b))%Q.
        rewrite IH, Hs. destruct (has_class "mitosis" (snd s)) eqn:E.
        - rewrite filter_cons_True by exact E. cbn [length to_float].
          rewrite Nat2Z.inj_succ, <- Z.add_1_l, inject_Z_plus. reflexivity.
        - rewrite filter_cons_False by congruence. cbn [to_float]. ring. }
      rewrite Hsum. reflexivity.
Qed.

Lemma minibatch_masks_split_by_class_witness :
  mitosis_filenames
    [([], 1%Q, "patches/train/mitosis/1.jpg"); ([], 0%Q, "patches/train/normal/2.jpg")]
  = ["patches/train/mitosis/1.jpg"].
Proof.
  refine (eq_trans (proj1 (minibatch_masks_split_by_class
            [([], 1%Q, "patches/train/mitosis/1.jpg"); ([], 0%Q, "patches/train/normal/2.jpg")]
            _)) eq_refl).
  repeat constructor.
Defined.

(** ** Saved files and optimizer state *)



(** The two optimizers keep separate state: a call that does not run the
    fine-tuning train op leaves the momentum optimizer's variables as they
    were, a call that does not run the classifier train op leaves Adam's,
    and a call that runs neither leaves the model's variables too. *)
Theorem optimizers_keep_separate_state (B : Backend) (cfg : Config) (g : Graph)
    (data : Data B) (fetches : list fetch) (fd : option Z) (s s' : Session B)
    (vs : list value) :
  sess_run B cfg g data fetches fd s = Ok (s', vs) ->
  (fetched finetune_train_op fetches = false -> finetune_slots s' = finetune_slots s) /\
  (fetched clf_train_op fetches = false -> clf_slots s' = clf_slots s) /\
  (fetched clf_train_op fetches = false -> fetched finetune_train_op fetches = false ->
   weights s' = weights s).
Proof.
  unfold sess_run.
  destruct (existsb needs_batch fetches);
    [destruct (iterator s) as [[| b rest] |] |]; cbn [rbind]; try discriminate;
    repeat match goal with
           | |- context [fetched ?f fetches] => destruct (fetched f fetches)
           end;
    cbn [when]; intros [= <- _]; repeat split; intros; try discriminate; reflexivity.
Qed.

Lemma optimizers_keep_separate_state_witness :
  exists s' vs,
    sess_run toy_backend (toy_config "vgg" 1 1 0 (1 # 10000) false) (toy_graph "vgg" 0)
      toy_data [train_init_op] None toy_session = Ok (s', vs) /\
    finetune_slots s' = finetune_slots toy_session.
Proof.
  eexists. eexists. split; [reflexivity |].
  exact (proj1 (optimizers_keep_separate_state toy_backend
                  (toy_config "vgg" 1 1 0 (1 # 10000) false) (toy_graph "vgg" 0)
                  toy_data [train_init_op] None toy_session _ _ eq_refl) eq_refl).
Defined.
